(** * Summarizer: configuration resolution ([summarizer/utils/config.py])

    A shallow embedding of the [HParameters] class: the constructor's
    defaults, [load_from_args] (argument merge and model selection),
    [_init] (run directory, accelerator flag, splits resolution, artifact
    paths, test/train bootstrap, logger) and [get_dataset_by_name].

    The Python object is an attribute store (a finite map from attribute
    names to dynamically typed values); statements run in a small monad
    that threads the store and a trace of the external effects, and that
    can raise a Python exception.  What the interpreter cannot know at
    definition time (the clock, the accelerator probe and the filename
    parser, which lives in another module) is gathered in a record [Env]. *)

From stdpp Require Import base option list gmap strings pretty.
From Stdlib Require Import ZArith Ascii String.

Local Open Scope list_scope.
Local Open Scope Z_scope.

(** ** Strings

    A Python [str] is modelled by a [string] whose characters are the code
    points below 256. *)

Module Str.

(** [c.isspace()] on code points below 256: TAB, LF, VT, FF, CR, the four
    separators FS, GS, RS, US, the space, NEL and the no-break space. *)
Definition isspace (c : ascii) : bool :=
  match c with
  | "009" | "010" | "011" | "012" | "013"
  | "028" | "029" | "030" | "031" | " " | "133" | "160" => true
  | _ => false
  end%char.

(** [s.split()]: the maximal runs of non-space characters, in order.
    [cur] holds the run being read, reversed. *)
Fixpoint split_go (cur : option string) (s : string) : list string :=
  match s with
  | "" => option_list (String.rev <$> cur)
  | String c s' =>
      if isspace c
      then option_list (String.rev <$> cur) ++ split_go None s'
      else split_go (Some (String c (default "" cur))) s'
  end.
Definition split (s : string) : list string := split_go None s.

(** [s.startswith(p)] *)
Fixpoint startswith (p s : string) : bool :=
  match p, s with
  | "", _ => true
  | String a p', String b s' => if Ascii.eqb a b then startswith p' s' else false
  | String _ _, "" => false
  end.

(** [n in d] for two strings: [n] occurs in [d] at some offset. *)
Fixpoint contains (n d : string) : bool :=
  startswith n d ||
  match d with
  | "" => false
  | String _ d' => contains n d'
  end.

(** The declarative reading of substring containment. *)
Definition substring_of (n d : string) : Prop :=
  ∃ pre post, d = pre +:+ n +:+ post.

(** [s.endswith("/")] *)
Fixpoint ends_with_sep (s : string) : bool :=
  match s with
  | "" => false
  | String c "" => Ascii.eqb c "/"
  | String _ s' => ends_with_sep s'
  end.

End Str.

(** ** [os.path] (posixpath) *)

Module os_path.

(** [p[p.rfind('/') + 1:]]: [cur] is the text after the last separator
    seen so far. *)
Fixpoint after_last_sep (p cur : string) : string :=
  match p with
  | "" => cur
  | String c p' =>
      if Ascii.eqb c "/" then after_last_sep p' p' else after_last_sep p' cur
  end.

Definition basename (p : string) : string := after_last_sep p p.

(** [join(a, b)] with two arguments. *)
Definition join (a b : string) : string :=
  if Str.startswith "/" b then b
  else if (String.eqb a "" || Str.ends_with_sep a)%bool then a +:+ b
  else a +:+ "/" +:+ b.

End os_path.

(** ** Values *)

(** The five model classes imported by the module; [class_name] is their
    [__name__]. *)
Inductive model : Set :=
| LogisticRegressionModel
| VASNetModel
| TransformerModel
| DSNModel
| SumGANModel.

Definition class_name (c : model) : string :=
  match c with
  | LogisticRegressionModel => "LogisticRegressionModel"
  | VASNetModel => "VASNetModel"
  | TransformerModel => "TransformerModel"
  | DSNModel => "DSNModel"
  | SumGANModel => "SumGANModel"
  end.

(** Dynamically typed values.  The lists this class builds (the defaults and
    the results of [str.split]) hold strings, and every dictionary it builds
    is keyed by strings and kept in insertion order.  A float literal
    [m * 10^e] is only stored and tested for truth, never computed with. *)
#[warnings="-register-all"]
Inductive value : Type :=
| VNone
| VBool (b : bool)
| VInt (n : Z)
| VFloat (m e : Z)
| VStr (s : string)
| VList (l : list string)
| VDict (d : list (string * value))
| VClass (c : model)
| VWriter (log_dir : string)
| VLogger (name : string).

Abbreviation dict := (list (string * value)).

Module Dict.

(** [d[k]], [None] when the key is missing *)
Fixpoint get (d : dict) (k : string) : option value :=
  match d with
  | [] => None
  | (k', v) :: d' => if String.eqb k' k then Some v else get d' k
  end.

(** [d[k] = v]: an existing key keeps its position, a new one goes last *)
Fixpoint set (d : dict) (k : string) (v : value) : dict :=
  match d with
  | [] => [(k, v)]
  | (k', v') :: d' =>
      if String.eqb k' k then (k', v) :: d' else (k', v') :: set d' k v
  end.

Definition keys (d : dict) : list string := d.*1.

(** A Python dict holds each key once. *)
Definition wf (d : dict) : Prop := NoDup (keys d).

End Dict.

(** [bool(v)] *)
Definition truthy (v : value) : bool :=
  match v with
  | VNone => false
  | VBool b => b
  | VInt n => negb (n =? 0)
  | VFloat m _ => negb (m =? 0)
  | VStr s => negb (String.eqb s "")
  | VList l => match l with [] => false | _ => true end
  | VDict d => match d with [] => false | _ => true end
  | VClass _ | VWriter _ | VLogger _ => true
  end.

(** [v == s] for a string literal [s] *)
Definition eq_str (v : value) (s : string) : bool :=
  match v with
  | VStr s' => String.eqb s' s
  | _ => false
  end.

(** [v is None] *)
Definition is_none (v : value) : bool :=
  match v with VNone => true | _ => false end.

(** ** Exceptions, effects and the statement monad *)

Inductive exn : Set :=
| AttributeError
| TypeError
| IndexError
| KeyError
| AssertionError (msg : string)
| CollaboratorError (msg : string).

Inductive outcome (A : Type) : Type :=
| Ok (a : A)
| Raise (e : exn).
Arguments Ok {A} a.
Arguments Raise {A} e.

(** The effects [_init] has outside the object, in program order.  Each is
    recorded when the call is made; the model does not make the file system
    or the logging library fail. *)
Inductive handler : Set :=
| StreamHandler
| FileHandler (path : string).

Inductive event : Set :=
| SummaryWriter_open (log_dir : string)
| makedirs (path : string)
| handler_open (h : handler)
| addHandler (h : handler)
| setLevel_INFO.

(** What resolution reads from outside the class. [now_us] is
    [datetime.datetime.now()] in microseconds since the epoch (the
    resolution of [datetime]; [timestamp()] turns it into a float of seconds,
    close enough to it for [int] to yield its whole seconds);
    [cuda_is_available] is the answer of [torch.cuda.is_available()];
    [parse_splits_filename] is the function imported from
    [summarizer.utils], which yields the dataset name and the split
    definitions of a splits file, or raises. *)
Record Env : Type := {
  now_us : Z;
  cuda_is_available : bool;
  parse_splits_filename : string → outcome (string * value)
}.

(** The attribute store of one [HParameters] object and the effects so far. *)
Record heap : Type := Heap {
  self : gmap string value;
  trace : list event
}.

Definition M (A : Type) : Type := heap → outcome A * heap.

Definition ret {A} (a : A) : M A := λ h, (Ok a, h).
Definition raise {A} (e : exn) : M A := λ h, (Raise e, h).
Definition bind {A B} (m : M A) (f : A → M B) : M B :=
  λ h, match m h with
       | (Ok a, h') => f a h'
       | (Raise e, h') => (Raise e, h')
       end.
Definition lift {A} (o : outcome A) : M A := λ h, (o, h).

(** The statements below are written with stdpp's monadic notations
    [x ← m; k] and [m;; k]. *)
#[export] Instance M_ret : MRet M := @ret.
#[export] Instance M_bind : MBind M := λ A B f m, bind m f.

(** [for x in l: body(x)] *)
Fixpoint for_each {A} (l : list A) (body : A → M unit) : M unit :=
  match l with
  | [] => ret ()
  | x :: l' => body x;; for_each l' body
  end.

(** [getattr(self, k)], [setattr(self, k, v)] and [self.k[key] = v].  The
    store holds the instance attributes.  Methods are found on the class and
    are not in the store; none of them is a list, so the test of the merge
    loop reads the store only.  An argument key that names a method
    ([_init], [get_dataset_by_name]) or one of the interpreter's slots
    ([__class__], [__dict__], [__weakref__]) is outside the model: see
    [attribute_names] below, which the properties of arbitrary argument
    mappings assume. *)
Definition getattr (k : string) : M value :=
  λ h, match self h !! k with
       | Some v => (Ok v, h)
       | None => (Raise AttributeError, h)
       end.

Definition setattr (k : string) (v : value) : M unit :=
  λ h, (Ok (), Heap (<[k := v]> (self h)) (trace h)).

Definition setitem (k key : string) (v : value) : M unit :=
  d ← getattr k;
  match d with
  | VDict d => setattr k (VDict (Dict.set d key v))
  | _ => raise TypeError
  end.

Definition emit (e : event) : M unit :=
  λ h, (Ok (), Heap (self h) (trace h ++ [e])).

(** ** Operations on values that may raise *)

(** The characters of a string, as strings. *)
Fixpoint chars (s : string) : list string :=
  match s with
  | "" => []
  | String c s' => String c "" :: chars s'
  end.

(** [iter(v)]: the items a [for] loop visits; numbers, [None] and classes are
    not iterable, a string yields its characters, a dict its keys. *)
Definition iter (v : value) : outcome (list string) :=
  match v with
  | VList l => Ok l
  | VStr s => Ok (chars s)
  | VDict d => Ok (Dict.keys d)
  | _ => Raise TypeError
  end.

(** [val.split()]: only [str] has the method. *)
Definition split (v : value) : outcome value :=
  match v with
  | VStr s => Ok (VList (Str.split s))
  | _ => Raise AttributeError
  end.

(** [v.pop()]: the last item of a list; [dict.pop] needs a key; nothing
    else has the method. *)
Definition pop (v : value) : outcome value :=
  match v with
  | VList l => match last l with Some x => Ok (VStr x) | None => Raise IndexError end
  | VDict _ => Raise TypeError
  | _ => Raise AttributeError
  end.

(** [v.__name__]: of the values here only classes have one. *)
Definition dunder_name (v : value) : outcome string :=
  match v with
  | VClass c => Ok (class_name c)
  | _ => Raise AttributeError
  end.

(** [os.fspath]: the check [os.path] functions and [SummaryWriter] make on
    a path argument. *)
Definition fspath (v : value) : outcome string :=
  match v with
  | VStr s => Ok s
  | _ => Raise TypeError
  end.

Definition os_path_join (a b : value) : M string :=
  a ← lift (fspath a); b ← lift (fspath b); ret (os_path.join a b).

(** [str(int(t))] for the clock reading [t]: [int] truncates toward zero. *)
Definition int_timestamp (env : Env) : Z := now_us env ÷ 1000000.

(** ** The class [HParameters] *)

(** [HParameters.__init__]: the attribute store of a fresh object. *)
Definition __init__ : gmap string value :=
  list_to_map [
    ("verbose", VBool false);
    ("use_cuda", VBool false);
    ("cuda_device", VInt 0);
    ("max_summary_length", VFloat 15 (-2));
    ("l2_req", VFloat 1 (-5));
    ("lr", VFloat 5 (-5));
    ("epochs_max", VInt 300);
    ("train_batch_size", VInt 1);
    ("test_every_epochs", VInt 2);
    ("root", VStr "");
    ("datasets", VList ["datasets/summarizer_dataset_summe_google_pool5.h5";
                        "datasets/summarizer_dataset_tvsum_google_pool5.h5"]);
    ("splits_files", VList ["splits/tvsum_splits.json";
                            "splits/summe_splits.json"]);
    ("model_class", VClass LogisticRegressionModel);
    ("test", VBool false);
    ("weights_path", VNone);
    ("weights_of_file", VNone);
    ("extra_params", VNone)
  ].

(** [hps = HParameters()], before anything has run. *)
Definition HParameters : heap := Heap __init__ [].

(** *** [get_dataset_by_name] *)

(** The loop of [get_dataset_by_name] over the items of [self.datasets]:
    the first item containing the name, in a one-item list, else [None]. *)
Fixpoint first_containing (dataset_name : string) (datasets : list string) : value :=
  match datasets with
  | [] => VNone
  | d :: rest =>
      if Str.contains dataset_name d then VList [d]
      else first_containing dataset_name rest
  end.

Definition get_dataset_by_name (dataset_name : string) : M value :=
  ds ← getattr "datasets";
  ds ← lift (iter ds);
  ret (first_containing dataset_name ds).

(** *** [load_from_args] *)

(** [args[key]] *)
Definition getitem (d : dict) (key : string) : M value :=
  match Dict.get d key with
  | Some v => ret v
  | None => raise KeyError
  end.

(** [getattr(self, key)] guarded by [hasattr(self, key)]: the attribute, if
    the object has it. *)
Definition getattr_opt (key : string) : M (option value) :=
  λ h, (Ok (self h !! key), h).

(** The body of the loop "Any key from flags". *)
Definition merge_arg (args : dict) (key : string) : M unit :=
  val ← getitem args key;
  if is_none val then ret ()
  else
    cur ← getattr_opt key;
    val ← match cur with
          | Some (VList _) => lift (split val)
          | _ => ret val
          end;
    setattr key val.

Definition merge_args (args : dict) : M unit :=
  for_each (Dict.keys args) (merge_arg args).

(** The dispatch table of "Pick model". *)
Definition model_table (name : string) : option model :=
  if String.eqb name "baseline" then Some LogisticRegressionModel
  else if String.eqb name "vasnet" then Some VASNetModel
  else if String.eqb name "transformer" then Some TransformerModel
  else if String.eqb name "DSN" then Some DSNModel
  else if String.eqb name "sumgan" then Some SumGANModel
  else None.

(** [table.get(v, LogisticRegressionModel)]: lists and dicts cannot be
    hashed; any other value that is not a key yields the default. *)
Definition table_get (v : value) : outcome model :=
  match v with
  | VStr name => Ok (default LogisticRegressionModel (model_table name))
  | VList _ | VDict _ => Raise TypeError
  | _ => Ok LogisticRegressionModel
  end.

Definition pick_model (args : dict) : M unit :=
  match Dict.get args "model" with
  | Some v => c ← lift (table_get v); setattr "model_class" (VClass c)
  | None => ret ()
  end.

(** *** [_init], block by block *)

(** "Experiment name, used as output directory" *)
Definition init_log_path (env : Env) : M unit :=
  cls ← getattr "model_class";
  name ← lift (dunder_name cls);
  let log_dir := pretty (int_timestamp env) +:+ "_" +:+ name in
  setattr "log_path" (VStr (os_path.join "logs" log_dir));;
  log_path ← getattr "log_path";
  log_path ← lift (fspath log_path);
  emit (SummaryWriter_open log_path);;
  setattr "writer" (VWriter log_path).

(** "Handle use_cuda flag" *)
Definition init_use_cuda (env : Env) : M unit :=
  use_cuda ← getattr "use_cuda";
  if eq_str use_cuda "default" then setattr "use_cuda" (VBool (cuda_is_available env))
  else if eq_str use_cuda "yes" then setattr "use_cuda" (VBool true)
  else setattr "use_cuda" (VBool false).

(** "List of splits by filename" *)
Definition resolve_splits_file (env : Env) (splits_file : string) : M unit :=
  '(dataset_name, splits) ← lift (parse_splits_filename env splits_file);
  setitem "dataset_name_of_file" splits_file (VStr dataset_name);;
  found ← get_dataset_by_name dataset_name;
  dataset ← lift (pop found);
  setitem "dataset_of_file" splits_file dataset;;
  setitem "splits_of_file" splits_file splits.

Definition init_splits (env : Env) : M unit :=
  setattr "dataset_name_of_file" (VDict []);;
  setattr "dataset_of_file" (VDict []);;
  setattr "splits_of_file" (VDict []);;
  splits_files ← getattr "splits_files";
  splits_files ← lift (iter splits_files);
  for_each splits_files (resolve_splits_file env).

(** "Destination for weights and predictions on dataset" *)
Definition derive_paths (splits_file : string) : M unit :=
  let weights_file := os_path.basename splits_file +:+ ".pth" in
  log_path ← getattr "log_path";
  p ← os_path_join log_path (VStr weights_file);
  setitem "weights_path" splits_file (VStr p);;
  let pred_file := os_path.basename splits_file +:+ "_preds.h5" in
  log_path ← getattr "log_path";
  p ← os_path_join log_path (VStr pred_file);
  setitem "pred_path" splits_file (VStr p).

Definition init_paths : M unit :=
  setattr "weights_path" (VDict []);;
  setattr "pred_path" (VDict []);;
  splits_files ← getattr "splits_files";
  splits_files ← lift (iter splits_files);
  for_each splits_files derive_paths.

(** "Check if test mode, path for weights is given" *)
Definition weights_lookup (splits_file : string) : M unit :=
  let splits_file_filename := os_path.basename splits_file in
  weights_path ← getattr "weights_path";
  p ← os_path_join weights_path (VStr (splits_file_filename +:+ ".pth"));
  setitem "weights_of_file" splits_file (VStr p).

Definition init_mode : M unit :=
  test ← getattr "test";
  if truthy test then
    weights_path ← getattr "weights_path";
    (if is_none weights_path then raise (AssertionError "No weights path given")
     else ret ());;
    setattr "weights_of_file" (VDict []);;
    splits_files ← getattr "splits_files";
    splits_files ← lift (iter splits_files);
    for_each splits_files weights_lookup
  else
    log_path ← getattr "log_path";
    log_path ← lift (fspath log_path);
    emit (makedirs log_path).

(** "Logger" *)
Definition init_logger : M unit :=
  setattr "logger" (VLogger "summarizer");;
  emit (handler_open StreamHandler);;
  log_path ← getattr "log_path";
  p ← os_path_join log_path (VStr "train.log");
  emit (handler_open (FileHandler p));;
  emit (addHandler StreamHandler);;
  emit (addHandler (FileHandler p));;
  emit setLevel_INFO.

Definition _init (env : Env) : M unit :=
  init_log_path env;;
  init_use_cuda env;;
  init_splits env;;
  init_paths;;
  init_mode;;
  init_logger.

Definition load_from_args (env : Env) (args : dict) : M unit :=
  merge_args args;;
  pick_model args;;
  _init env.

(** ** A concrete environment *)

(** The text of [s] before its first underscore. *)
Fixpoint up_to_underscore (s : string) : string :=
  match s with
  | "" => ""
  | String c s' => if Ascii.eqb c "_" then "" else String c (up_to_underscore s')
  end.

(** Modelled from the spec: [parse_splits_filename] is imported from
    [summarizer.utils] and is not part of this file; the spec says only that
    it yields a dataset name and the split definitions from a splits-file
    path.  This instance takes the text of the basename up to its first
    underscore as the name and answers no split definitions. *)
Definition example_parse (splits_file : string) : outcome (string * value) :=
  Ok (up_to_underscore (os_path.basename splits_file), VList []).

(** A run at second 171 of the epoch (and 250 ms), with no accelerator. *)
Definition example_env : Env :=
  {| now_us := 171250000; cuda_is_available := false;
     parse_splits_filename := example_parse |}.

(** The same run half a second later. *)
Definition example_env_later : Env :=
  {| now_us := 171750000; cuda_is_available := false;
     parse_splits_filename := example_parse |}.

(** The run directory [_init] computes for model class [c]. *)
Definition run_dir (env : Env) (c : model) : string :=
  os_path.join "logs" (pretty (int_timestamp env) +:+ "_" +:+ class_name c).

(** The flag "Handle use_cuda flag" stores for the merged value [v]. *)
Definition cuda_flag (env : Env) (v : value) : bool :=
  if eq_str v "default" then cuda_is_available env
  else if eq_str v "yes" then true
  else false.

(** The events of the block "Logger" for log directory [log_path]. *)
Definition logger_events (log_path : string) : list event :=
  [handler_open StreamHandler;
   handler_open (FileHandler (os_path.join log_path "train.log"));
   addHandler StreamHandler;
   addHandler (FileHandler (os_path.join log_path "train.log"));
   setLevel_INFO].

(** [is_dict_attr k h]: attribute [k] of the object holds a dictionary. *)
Definition is_dict_attr (k : string) (h : heap) : Prop :=
  ∃ d, self h !! k = Some (VDict d).

(** The dictionary the loop of "Destination for weights and predictions"
    builds from [d]: one entry per splits file, named after its basename. *)
Definition artifact_paths (log_path suffix : string) (splits_files : list string)
    (d : dict) : dict :=
  fold_left
    (λ d f, Dict.set d f (VStr (os_path.join log_path (os_path.basename f +:+ suffix))))
    splits_files d.

(** What the merge loop tests and assigns.  [is_list_attr] is the test
    [hasattr(self, key) and isinstance(getattr(self, key), list)];
    [splittable store args] says that every value [args] gives to a list
    attribute of [store] is a string or [None], the values [val.split()]
    accepts. *)
Definition is_list_attr (cur : option value) : bool :=
  match cur with
  | Some (VList _) => true
  | _ => false
  end.

Definition str_or_none (v : value) : bool :=
  match v with
  | VNone | VStr _ => true
  | _ => false
  end.

Definition splittable (store : gmap string value) (args : dict) : bool :=
  forallb (λ kv, if is_list_attr (store !! kv.1) then str_or_none kv.2 else true) args.

(** The value the merge stores for a key whose argument is [v], given the
    attribute [cur] found under that key. *)
Definition merged (cur : option value) (v : value) : option value :=
  if is_none v then cur
  else if is_list_attr cur
       then match v with VStr s => Some (VList (Str.split s)) | _ => None end
       else Some v.

Fixpoint has_space (s : string) : bool :=
  match s with
  | "" => false
  | String c s' => Str.isspace c || has_space s'
  end.

(** ** Properties of statements *)

(** [preserves k m]: [m] never assigns attribute [k]. *)
Definition preserves (k : string) {A} (m : M A) : Prop :=
  ∀ h, self (m h).2 !! k = self h !! k.

(** [silent m]: [m] has no effect outside the object. *)
Definition silent {A} (m : M A) : Prop :=
  ∀ h, trace (m h).2 = trace h.

(** [maintains P m]: every run of [m], raising or not, keeps the property
    [P] of the attribute store. *)
Definition maintains (P : gmap string value → Prop) {A} (m : M A) : Prop :=
  ∀ h, P (self h) → P (self (m h).2).

(** ** The spec's reading of the merge

    The spec describes the value of a sequence field as a whitespace- or
    comma-delimited string that is split into a sequence.  [split_spec] is
    that reading: commas separate items as white space does. *)
Definition is_delimiter_spec (c : ascii) : bool :=
  (Str.isspace c || Ascii.eqb c ",")%bool.

Fixpoint split_spec_go (cur : option string) (s : string) : list string :=
  match s with
  | "" => option_list (String.rev <$> cur)
  | String c s' =>
      if is_delimiter_spec c
      then option_list (String.rev <$> cur) ++ split_spec_go None s'
      else split_spec_go (Some (String c (default "" cur))) s'
  end.
Definition split_spec (s : string) : list string := split_spec_go None s.

(** ** The reporting methods *)

(** The line feed. *)
Definition newline : string := String "010" "".

(** [__str__].  [str_of] is the interpreter's [str] on an attribute value
    (its text for a float, a list or an object is the interpreter's
    business); [str(i)] of the index is its decimal text.  No value of the
    model is a torch [Variable], so the branch that unwraps one is not
    taken.  [len] is [len(vars)]. *)
Definition str_vars : list string :=
  ["verbose"; "use_cuda"; "cuda_device"; "l2_req"; "lr"; "epochs_max";
   "log_path"; "splits_files"; "extra_params"].

Definition str_line (str_of : value → string) (i : nat) (var : string)
    (val : value) : string :=
  (((("[" +:+ pretty i) +:+ "] ") +:+ var) +:+ ": ") +:+ str_of val.

Fixpoint str_loop (str_of : value → string) (len i : nat) (vars : list string)
    (info_str : string) : M string :=
  match vars with
  | [] => ret info_str
  | var :: rest =>
      val ← getattr var;
      let info_str := info_str +:+ str_line str_of i var val in
      let info_str := info_str +:+ (if (i <? len - 1)%nat then newline else "") in
      str_loop str_of len (S i) rest info_str
  end.

Definition __str__ (str_of : value → string) : M string :=
  str_loop str_of (List.length str_vars) 0 str_vars "".

(** ["\n".join(lines)], the layout [__str__] is meant to produce. *)
Fixpoint join_lines (lines : list string) : string :=
  match lines with
  | [] => ""
  | [line] => line
  | line :: rest => line +:+ newline +:+ join_lines rest
  end.

(** The lines of the report, numbered from [i]. *)
Fixpoint str_lines (str_of : value → string) (i : nat) (vars : list string)
    (vals : list value) : list string :=
  match vars, vals with
  | var :: vars', val :: vals' =>
      str_line str_of i var val :: str_lines str_of (S i) vars' vals'
  | _, _ => []
  end.

(** [get_full_hps_dict]: the loop fills the local dict [hps]. *)
Definition hps_vars : list string := ["l2_req"; "lr"; "epochs_max"].

Fixpoint collect_vars (vars : list string) (hps : dict) : M dict :=
  match vars with
  | [] => ret hps
  | var :: rest =>
      val ← getattr var;
      collect_vars rest (Dict.set hps var val)
  end.

Definition get_full_hps_dict : M value :=
  hps ← collect_vars hps_vars [];
  ret (VDict hps).

(** The value of hyperparameter [k] after a merge of [args] over the
    default [dflt]. *)
Definition hp_value (args : dict) (k : string) (dflt : value) : value :=
  match Dict.get args k with
  | Some v => if is_none v then dflt else v
  | None => dflt
  end.

(** ** Further notions for the properties *)

(** The attributes [_init] assigns. *)
Definition init_writes : list string :=
  ["log_path"; "writer"; "use_cuda"; "dataset_name_of_file"; "dataset_of_file";
   "splits_of_file"; "weights_path"; "pred_path"; "weights_of_file"; "logger"].

(** [s] holds a path separator. *)
Fixpoint has_sep (s : string) : bool :=
  match s with
  | "" => false
  | String c s' => Ascii.eqb c "/" || has_sep s'
  end.

(** A splits file resolves: the parser yields a dataset name, and some
    configured dataset path contains it. *)
Definition resolves (env : Env) (datasets : list string) (splits_file : string)
    (name : string) (splits : value) (dataset : string) : Prop :=
  parse_splits_filename env splits_file = Ok (name, splits) ∧
  first_containing name datasets = VList [dataset].

(** [s] holds white space only. *)
Fixpoint all_space (s : string) : bool :=
  match s with
  | "" => true
  | String c s' => Str.isspace c && all_space s'
  end.

(** The three maps of the resolver. *)
Definition splits_maps (h : heap) (dn dof sof : dict) : Prop :=
  self h !! "dataset_name_of_file" = Some (VDict dn) ∧
  self h !! "dataset_of_file" = Some (VDict dof) ∧
  self h !! "splits_of_file" = Some (VDict sof).

(** The entries the resolver's loop over [files] leaves in the maps
    [dn], [dof], [sof], started from [dn0], [dof0], [sof0]. *)
Definition resolved_entries (env : Env) (ds : list string) (files : list string)
    (dn0 dof0 sof0 dn dof sof : dict) : Prop :=
  ∀ f,
    (f ∈ files →
       ∃ name splits d, resolves env ds f name splits d ∧
         Dict.get dn f = Some (VStr name) ∧
         Dict.get dof f = Some (VStr d) ∧
         Dict.get sof f = Some splits) ∧
    (f ∉ files →
       Dict.get dn f = Dict.get dn0 f ∧
       Dict.get dof f = Dict.get dof0 f ∧
       Dict.get sof f = Dict.get sof0 f).

(** ** Argument keys

    [setattr] above is the assignment of an instance attribute, which is
    what [setattr(self, key, val)] does for every key but three:
    [__class__], [__dict__] and [__weakref__] are data descriptors of the
    type, and assigning them replaces the class or the whole attribute
    dictionary of the object, or raises.  An argument stored under the name
    of a method shadows that method in the calls [self._init()] and
    [self.get_dataset_by_name(...)] and in the calls a client makes, all of
    which the model resolves on the class.  [attribute_names args] says that
    no key of [args] is one of these names: on such mappings the merge loop
    of the model is the merge loop of the code. *)
Definition slot_names : list string := ["__class__"; "__dict__"; "__weakref__"].

Definition method_names : list string :=
  ["load_from_args"; "_init"; "get_dataset_by_name"; "get_full_hps_dict"].

Definition attribute_name (key : string) : bool :=
  bool_decide (key ∉ slot_names ++ method_names).

Definition attribute_names (args : dict) : bool :=
  forallb attribute_name (Dict.keys args).

(** [s] holds a comma; [comma_free store args]: no text that [args] gives
    to a list attribute of [store] holds one.  On such texts the spec's
    reading of the split and [str.split] agree. *)
Fixpoint has_comma (s : string) : bool :=
  match s with
  | "" => false
  | String c s' => Ascii.eqb c "," || has_comma s'
  end.

Definition comma_free (store : gmap string value) (args : dict) : bool :=
  forallb (λ kv, if is_list_attr (store !! kv.1)
                 then match kv.2 with VStr s => negb (has_comma s) | _ => true end
                 else true) args.

(** The object [h] with [weights_path] set by the caller to [w]. *)
Definition with_weights_path (w : value) (h : heap) : heap :=
  Heap (<["weights_path" := w]> (self h)) (trace h).

(** [agree_except k h1 h2]: the two objects have had the same effects and
    hold the same attributes, but for [k].  [ignores k m]: the statement [m]
    does not depend on attribute [k]: run on two such objects it ends the
    same way and leaves two such objects. *)
Definition agree_except (k : string) (h1 h2 : heap) : Prop :=
  trace h1 = trace h2 ∧ ∀ k', k' ≠ k → self h1 !! k' = self h2 !! k'.

Definition ignores (k : string) {A} (m : M A) : Prop :=
  ∀ h1 h2, agree_except k h1 h2 →
    (m h1).1 = (m h2).1 ∧ agree_except k (m h1).2 (m h2).2.

(** The statements of [_init] before the block "Destination for weights
    and predictions". *)
Definition init_before_paths (env : Env) : M unit :=
  init_log_path env;;
  init_use_cuda env;;
  init_splits env.

(** * Properties *)

(** ** Strings and paths *)

Section strings.
Implicit Types s t p : string.

Lemma append_cons c s t : String c s +:+ t = String c (s +:+ t).
Proof. reflexivity. Qed.

Lemma append_nil_l s : "" +:+ s = s.
Proof. reflexivity. Qed.

Lemma append_nil_r s : s +:+ "" = s.
Proof. induction s as [|c s IH]; [done|]. by rewrite append_cons, IH. Qed.

Lemma append_assoc s t p : (s +:+ t) +:+ p = s +:+ (t +:+ p).
Proof. induction s as [|c s IH]; [done|]. by rewrite !append_cons, IH. Qed.

Lemma length_append s t :
  String.length (s +:+ t) = (String.length s + String.length t)%nat.
Proof.
  induction s as [|c s IH]; [done|]. rewrite append_cons. simpl. by rewrite IH.
Qed.

(** Appending the same text on the right is injective. *)
Lemma append_inj_r s1 s2 t : s1 +:+ t = s2 +:+ t → s1 = s2.
Proof.
  revert s2. induction s1 as [|c s1 IH]; intros [|c2 s2] Heq;
    rewrite ?append_cons, ?append_nil_l in Heq.
  - done.
  - apply (f_equal String.length) in Heq. simpl in Heq.
    rewrite length_append in Heq. lia.
  - apply (f_equal String.length) in Heq. simpl in Heq.
    rewrite length_append in Heq. lia.
  - injection Heq as -> Heq. f_equal. by apply IH.
Qed.

Lemma startswith_spec p s :
  Str.startswith p s = true ↔ ∃ post, s = p +:+ post.
Proof.
  revert s. induction p as [|a p IH]; intros s; simpl.
  - split; [intros _; by exists s|done].
  - destruct s as [|b s]; [split; [done|intros [post ?]; done]|].
    destruct (Ascii.eqb_spec a b) as [->|Hne].
    + rewrite IH. split; intros [post Hpost]; exists post.
      * by rewrite Hpost.
      * rewrite append_cons in Hpost. by injection Hpost.
    + split; [done|]. intros [post Hpost].
      rewrite append_cons in Hpost. injection Hpost as ??. by subst.
Qed.

(** [n in d] is substring containment. *)
Lemma contains_spec n d :
  Str.contains n d = true ↔ Str.substring_of n d.
Proof.
  unfold Str.substring_of. induction d as [|c d IH].
  - simpl. rewrite orb_false_r, startswith_spec. split.
    + intros [post Hpost]. by exists "", post.
    + intros ([|a pre] & post & Hpost); [by exists post|done].
  - cbn [Str.contains]. rewrite orb_true_iff, IH, startswith_spec. split.
    + intros [[post Hpost]|(pre & post & Hpost)].
      * by exists "", post.
      * exists (String c pre), post. by rewrite append_cons, Hpost.
    + intros ([|a pre] & post & Hpost).
      * left. by exists post.
      * right. rewrite append_cons in Hpost. injection Hpost as -> Hpost.
        by exists pre, post.
Qed.

Lemma contains_false n d :
  Str.contains n d = false ↔ ¬ Str.substring_of n d.
Proof. rewrite <-contains_spec. by destruct (Str.contains n d). Qed.

End strings.

(** ** Running statements *)

Section monad.
Context {A B : Type}.
Implicit Types (m : M A) (f : A → M B) (h : heap).

Lemma bind_run m f h :
  (m ≫= f) h =
    match m h with
    | (Ok a, h') => f a h'
    | (Raise e, h') => (Raise e, h')
    end.
Proof. reflexivity. Qed.

Lemma bind_ok m f h a h1 : m h = (Ok a, h1) → (m ≫= f) h = f a h1.
Proof. intros Hm. by rewrite bind_run, Hm. Qed.

Lemma bind_raise m f h e h1 :
  m h = (Raise e, h1) → (m ≫= f) h = (Raise e, h1).
Proof. intros Hm. by rewrite bind_run, Hm. Qed.

(** A run of [m ≫= f] either stops where [m] raises or continues with [f]. *)
Lemma bind_inv m f h r h' :
  (m ≫= f) h = (r, h') →
  (∃ e, m h = (Raise e, h') ∧ r = Raise e) ∨
  (∃ a h1, m h = (Ok a, h1) ∧ f a h1 = (r, h')).
Proof.
  rewrite bind_run. destruct (m h) as [[a|e] h1]; intros Hrun.
  - right. by exists a, h1.
  - left. exists e. by simplify_eq.
Qed.

Lemma bind_ok_inv m f h b h' :
  (m ≫= f) h = (Ok b, h') →
  ∃ a h1, m h = (Ok a, h1) ∧ f a h1 = (Ok b, h').
Proof. intros [(e & _ & ?)|?]%bind_inv; [done|done]. Qed.
End monad.

Lemma getattr_ok k v h : self h !! k = Some v → getattr k h = (Ok v, h).
Proof. unfold getattr. by intros ->. Qed.

Lemma getattr_inv k h r h' :
  getattr k h = (r, h') →
  h' = h ∧ (r = Raise AttributeError ∧ self h !! k = None ∨
            ∃ v, r = Ok v ∧ self h !! k = Some v).
Proof.
  unfold getattr. destruct (self h !! k) as [v|]; intros; simplify_eq; eauto.
Qed.

(** *** Frame properties: what a statement leaves alone *)

Section frame.
Context {A B : Type}.
Implicit Types (m : M A) (f : A → M B) (k : string).

Lemma preserves_ret k (a : A) : preserves k (mret a).
Proof. done. Qed.
Lemma preserves_raise k e : preserves k (@raise A e).
Proof. done. Qed.
Lemma preserves_lift k (o : outcome A) : preserves k (lift o).
Proof. done. Qed.
Lemma preserves_bind k m f :
  preserves k m → (∀ a, preserves k (f a)) → preserves k (m ≫= f).
Proof.
  intros Hm Hf h. rewrite bind_run. specialize (Hm h).
  destruct (m h) as [[a|e] h1]; simpl in *; [|done].
  by rewrite Hf.
Qed.

Lemma silent_ret (a : A) : silent (mret a).
Proof. done. Qed.
Lemma silent_raise e : silent (@raise A e).
Proof. done. Qed.
Lemma silent_lift (o : outcome A) : silent (lift o).
Proof. done. Qed.
Lemma silent_bind m f : silent m → (∀ a, silent (f a)) → silent (m ≫= f).
Proof.
  intros Hm Hf h. rewrite bind_run. specialize (Hm h).
  destruct (m h) as [[a|e] h1]; simpl in *; [|done].
  by rewrite Hf.
Qed.
End frame.

Lemma preserves_getattr k k' : preserves k (getattr k').
Proof. intros h. unfold getattr. by destruct (self h !! k'). Qed.
Lemma preserves_setattr k k' v : k ≠ k' → preserves k (setattr k' v).
Proof. intros Hne h. simpl. by rewrite lookup_insert_ne. Qed.
Lemma preserves_emit k e : preserves k (emit e).
Proof. done. Qed.
Lemma preserves_for_each {A} k (l : list A) body :
  (∀ x, preserves k (body x)) → preserves k (for_each l body).
Proof.
  intros Hbody. induction l as [|x l IH]; [done|].
  by apply preserves_bind.
Qed.

Lemma silent_getattr k : silent (getattr k).
Proof. intros h. unfold getattr. by destruct (self h !! k). Qed.
Lemma silent_setattr k v : silent (setattr k v).
Proof. done. Qed.
Lemma silent_for_each {A} (l : list A) body :
  (∀ x, silent (body x)) → silent (for_each l body).
Proof.
  intros Hbody. induction l as [|x l IH]; [done|].
  by apply silent_bind.
Qed.

(** The two frame properties of a compound statement follow its syntax. *)
Ltac frame_step :=
  lazymatch goal with
  | |- preserves _ (_ ≫= _) => apply preserves_bind; [|intros ?]
  | |- preserves _ (mret _) => apply preserves_ret
  | |- preserves _ (ret _) => apply preserves_ret
  | |- preserves _ (raise _) => apply preserves_raise
  | |- preserves _ (lift _) => apply preserves_lift
  | |- preserves _ (getattr _) => apply preserves_getattr
  | |- preserves _ (setattr _ _) => apply preserves_setattr; done
  | |- preserves _ (emit _) => apply preserves_emit
  | |- preserves _ (for_each _ _) => apply preserves_for_each; intros ?
  | |- silent (_ ≫= _) => apply silent_bind; [|intros ?]
  | |- silent (mret _) => apply silent_ret
  | |- silent (ret _) => apply silent_ret
  | |- silent (raise _) => apply silent_raise
  | |- silent (lift _) => apply silent_lift
  | |- silent (getattr _) => apply silent_getattr
  | |- silent (setattr _ _) => apply silent_setattr
  | |- silent (for_each _ _) => apply silent_for_each; intros ?
  | |- preserves _ (match ?x with _ => _ end) => destruct x
  | |- silent (match ?x with _ => _ end) => destruct x
  end.
Ltac frame := repeat (frame_step; cbv beta).

Lemma preserves_setitem k k' key v : k ≠ k' → preserves k (setitem k' key v).
Proof. intros. unfold setitem. frame. Qed.
Lemma silent_setitem k key v : silent (setitem k key v).
Proof. unfold setitem. frame. Qed.
Lemma preserves_os_path_join k a b : preserves k (os_path_join a b).
Proof. unfold os_path_join. frame. Qed.
Lemma silent_os_path_join a b : silent (os_path_join a b).
Proof. unfold os_path_join. frame. Qed.
Lemma preserves_get_dataset_by_name k n : preserves k (get_dataset_by_name n).
Proof. unfold get_dataset_by_name. frame. Qed.
Lemma silent_get_dataset_by_name n : silent (get_dataset_by_name n).
Proof. unfold get_dataset_by_name. frame. Qed.

Ltac frame_call :=
  lazymatch goal with
  | |- preserves _ (setitem _ _ _) => apply preserves_setitem; done
  | |- preserves _ (os_path_join _ _) => apply preserves_os_path_join
  | |- preserves _ (get_dataset_by_name _) => apply preserves_get_dataset_by_name
  | |- silent (setitem _ _ _) => apply silent_setitem
  | |- silent (os_path_join _ _) => apply silent_os_path_join
  | |- silent (get_dataset_by_name _) => apply silent_get_dataset_by_name
  | |- _ => frame_step
  end.
Ltac frames := repeat (frame_call; cbv beta).

(** ** Dataset lookup *)

(** The loop returns at the first item that contains the name and falls
    through to [None] when no item does. *)
Lemma first_containing_spec name ds :
  (∃ pre d post,
      ds = pre ++ d :: post ∧
      Forall (λ x, ¬ Str.substring_of name x) pre ∧
      Str.substring_of name d ∧
      first_containing name ds = VList [d]) ∨
  (Forall (λ x, ¬ Str.substring_of name x) ds ∧
   first_containing name ds = VNone).
Proof.
  induction ds as [|d ds IH]; [by right|].
  cbn [first_containing]. destruct (Str.contains name d) eqn:Hd.
  - left. exists [], d, ds. by rewrite <-contains_spec.
  - apply contains_false in Hd.
    destruct IH as [(pre & d' & post & -> & Hpre & Hd' & Hres)|[Hall Hres]].
    + left. exists (d :: pre), d', post. by repeat constructor.
    + right. by repeat constructor.
Qed.

(** C1 (amended): [get_dataset_by_name] never raises on a list of dataset
    paths; it answers the first configured path that contains the name as a
    substring, in a one-item list, and answers [None] (no error) when no
    configured path contains the name. *)
Theorem get_dataset_by_name_first_match h name ds :
  self h !! "datasets" = Some (VList ds) →
  ∃ r, get_dataset_by_name name h = (Ok r, h) ∧
    ((∃ pre d post,
        ds = pre ++ d :: post ∧
        Forall (λ x, ¬ Str.substring_of name x) pre ∧
        Str.substring_of name d ∧
        r = VList [d]) ∨
     (Forall (λ x, ¬ Str.substring_of name x) ds ∧ r = VNone)).
Proof.
  intros Hds. exists (first_containing name ds). split.
  - unfold get_dataset_by_name.
    rewrite (bind_ok _ _ _ _ _ (getattr_ok _ _ _ Hds)). done.
  - apply first_containing_spec.
Qed.

Lemma get_dataset_by_name_first_match_witness :
  ∃ r, get_dataset_by_name "summe" HParameters = (Ok r, HParameters) ∧
    ((∃ pre d post,
        ["datasets/summarizer_dataset_summe_google_pool5.h5";
         "datasets/summarizer_dataset_tvsum_google_pool5.h5"] = pre ++ d :: post ∧
        Forall (λ x, ¬ Str.substring_of "summe" x) pre ∧
        Str.substring_of "summe" d ∧
        r = VList [d]) ∨
     (Forall (λ x, ¬ Str.substring_of "summe" x)
        ["datasets/summarizer_dataset_summe_google_pool5.h5";
         "datasets/summarizer_dataset_tvsum_google_pool5.h5"] ∧ r = VNone)).
Proof.
  apply (get_dataset_by_name_first_match HParameters "summe"). reflexivity.
Defined.

(** C1 as stated fails: no default dataset path contains [ovp], and the
    lookup answers [None] instead of raising; resolution of a splits file of
    that dataset then stops at [None.pop()] with the interpreter's
    [AttributeError]. *)
Lemma get_dataset_by_name_not_found_is_none :
  Forall (λ d, ¬ Str.substring_of "ovp" d)
    ["datasets/summarizer_dataset_summe_google_pool5.h5";
     "datasets/summarizer_dataset_tvsum_google_pool5.h5"] ∧
  get_dataset_by_name "ovp" HParameters = (Ok VNone, HParameters) ∧
  (load_from_args example_env [("splits_files", VStr "splits/ovp_splits.json")]
     HParameters).1 = Raise AttributeError.
Proof.
  split; [|split].
  - repeat constructor; by apply contains_false.
  - reflexivity.
  - vm_compute. reflexivity.
Qed.

(** ** The argument merge *)

Section dict.
Implicit Types (d : dict) (k : string) (v : value).

Lemma get_keys d k : k ∈ Dict.keys d ↔ is_Some (Dict.get d k).
Proof.
  unfold Dict.keys. induction d as [|[k' v'] d IH]; simpl.
  - rewrite elem_of_nil. split; [done|]. by intros [? ?].
  - rewrite elem_of_cons, IH. destruct (String.eqb_spec k' k) as [->|Hne].
    + split; eauto.
    + split; [intros [?|?]; [by subst|done]|by right].
Qed.

Lemma get_set_eq d k v : Dict.get (Dict.set d k v) k = Some v.
Proof.
  induction d as [|[k' v'] d IH]; simpl.
  - by rewrite String.eqb_refl.
  - destruct (String.eqb_spec k' k) as [->|Hne]; simpl.
    + by rewrite String.eqb_refl.
    + by destruct (String.eqb_spec k' k).
Qed.

Lemma get_set_ne d k k' v : k ≠ k' → Dict.get (Dict.set d k v) k' = Dict.get d k'.
Proof.
  intros Hne. induction d as [|[k0 v0] d IH]; simpl.
  - by destruct (String.eqb_spec k k').
  - destruct (String.eqb_spec k0 k) as [->|Hne0]; simpl.
    + by destruct (String.eqb_spec k k').
    + by rewrite IH.
Qed.

Lemma splittable_get store d k v :
  splittable store d = true → Dict.get d k = Some v →
  is_list_attr (store !! k) = true → str_or_none v = true.
Proof.
  unfold splittable. induction d as [|[k' v'] d IH]; simpl; [done|].
  rewrite andb_true_iff. intros [Hhd Htl].
  destruct (String.eqb_spec k' k) as [->|Hne].
  - intros [= ->] Hlist. by rewrite Hlist in Hhd.
  - by apply IH.
Qed.
End dict.

Lemma merge_arg_run args key v h :
  Dict.get args key = Some v →
  (is_list_attr (self h !! key) = true → str_or_none v = true) →
  ∃ h', merge_arg args key h = (Ok (), h') ∧
    trace h' = trace h ∧
    self h' !! key = merged (self h !! key) v ∧
    ∀ k, k ≠ key → self h' !! k = self h !! k.
Proof.
  intros Hget Hstr. unfold merge_arg, getitem, merged. rewrite Hget.
  rewrite bind_run. cbn [ret]. destruct (is_none v) eqn:Hnone.
  { exists h. done. }
  rewrite bind_run. unfold getattr_opt.
  destruct (is_list_attr (self h !! key)) eqn:Hlist.
  - specialize (Hstr eq_refl).
    destruct (self h !! key) as [[]|] eqn:Hcur; try done.
    destruct v; try done. simpl. eexists. split; [done|]. simpl.
    rewrite lookup_insert_eq. split_and!; [done..|].
    intros k Hk. by rewrite lookup_insert_ne.
  - destruct (self h !! key) as [[]|] eqn:Hcur; try done;
      (eexists; split; [done|]; simpl;
       rewrite lookup_insert_eq; split_and!; [done..|];
       intros k Hk; by rewrite lookup_insert_ne).
Qed.

(** The loop over distinct keys: every key of the loop gets its merged
    value, every other attribute and the trace are left alone. *)
Lemma merge_loop args ks h :
  NoDup ks →
  (∀ k, k ∈ ks → ∃ v, Dict.get args k = Some v ∧
      (is_list_attr (self h !! k) = true → str_or_none v = true)) →
  ∃ h', for_each ks (merge_arg args) h = (Ok (), h') ∧
    trace h' = trace h ∧
    (∀ k v, k ∈ ks → Dict.get args k = Some v →
       self h' !! k = merged (self h !! k) v) ∧
    (∀ k, k ∉ ks → self h' !! k = self h !! k).
Proof.
  intros Hnd. revert h. induction Hnd as [|x ks Hx Hnd IH]; intros h Hargs.
  { exists h. split_and!; try done. intros k v Hk. by apply elem_of_nil in Hk. }
  destruct (Hargs x) as (vx & Hgetx & Hstrx); [by left|].
  destruct (merge_arg_run args x vx h Hgetx Hstrx) as (h1 & Hrun1 & Htr1 & Hx1 & Hfr1).
  destruct (IH h1) as (h' & Hrun & Htr & Hin & Hout).
  { intros k Hk. destruct (Hargs k) as (v & Hget & Hstr); [by right|].
    exists v. split; [done|]. rewrite Hfr1; [done|]. intros ->. done. }
  exists h'. split_and!.
  - cbn [for_each]. by rewrite (bind_ok _ _ _ _ _ Hrun1).
  - congruence.
  - intros k v [->|Hk]%elem_of_cons Hget.
    + rewrite Hout by done. congruence.
    + rewrite (Hin k v Hk Hget), Hfr1; [done|]. intros ->. done.
  - intros k [Hkx Hk]%not_elem_of_cons. by rewrite Hout, Hfr1.
Qed.

Lemma merge_args_run store args tr :
  Dict.wf args → splittable store args = true →
  ∃ h', merge_args args (Heap store tr) = (Ok (), h') ∧
    trace h' = tr ∧
    (∀ k v, Dict.get args k = Some v → self h' !! k = merged (store !! k) v) ∧
    (∀ k, Dict.get args k = None → self h' !! k = store !! k).
Proof.
  intros Hwf Hsplit.
  destruct (merge_loop args (Dict.keys args) (Heap store tr) Hwf)
    as (h' & Hrun & Htr & Hin & Hout).
  { intros k [v Hv]%get_keys. exists v. split; [done|].
    simpl. by eapply splittable_get. }
  exists h'. split_and!; [done..| |].
  - intros k v Hget. apply Hin; [|done]. apply get_keys. by exists v.
  - intros k Hget. apply Hout. rewrite get_keys, Hget. by intros [? ?].
Qed.

(** *** [str.split] *)

Lemma rev_app_rev_app s a b :
  String.rev_app (String.rev_app s a) b = String.rev_app a (s +:+ b).
Proof.
  revert a b. induction s as [|c s IH]; intros a b; [done|].
  cbn [String.rev_app]. by rewrite IH.
Qed.

Lemma rev_involutive s : String.rev (String.rev s) = s.
Proof. unfold String.rev. by rewrite rev_app_rev_app, append_nil_r. Qed.

Lemma split_go_no_space acc s :
  has_space s = false →
  Str.split_go (Some acc) s = [String.rev (String.rev_app s acc)].
Proof.
  revert acc. induction s as [|c s IH]; intros acc; [done|].
  cbn [has_space Str.split_go]. intros [Hc Hs]%orb_false_iff.
  rewrite Hc. by rewrite IH.
Qed.

(** A non-empty text without white space is one item, commas or not. *)
Lemma split_no_space s :
  s ≠ "" → has_space s = false → Str.split s = [s].
Proof.
  destruct s as [|c s]; [done|]. intros _ [Hc Hs]%orb_false_iff.
  unfold Str.split. cbn [Str.split_go]. rewrite Hc. cbn [default].
  rewrite split_go_no_space by done.
  change (String.rev_app s (String c "")) with (String.rev (String c s)).
  by rewrite rev_involutive.
Qed.

(** No item of a split is empty or holds white space. *)
Lemma split_go_items cur s :
  from_option (λ acc, acc ≠ "" ∧ has_space (String.rev acc) = false) True cur →
  Forall (λ item, item ≠ "" ∧ has_space item = false) (Str.split_go cur s).
Proof.
  revert cur. induction s as [|c s IH]; intros cur Hcur.
  - cbn [Str.split_go]. destruct cur as [acc|]; simpl in *; [|done].
    repeat constructor; [|by destruct Hcur].
    destruct Hcur as [Hne _]. intros Hrev. apply Hne.
    by rewrite <-(rev_involutive acc), Hrev.
  - cbn [Str.split_go]. destruct (Str.isspace c) eqn:Hc.
    + apply Forall_app. split; [|by apply IH].
      destruct cur as [acc|]; simpl in *; [|done].
      repeat constructor; [|by destruct Hcur].
      destruct Hcur as [Hne _]. intros Hrev. apply Hne.
      by rewrite <-(rev_involutive acc), Hrev.
    + apply IH. simpl. split; [done|].
      assert (∀ a b, has_space (String.rev_app a b) = has_space a || has_space b) as Hra.
      { clear. induction a as [|x a IH]; intros b; [done|].
        cbn [String.rev_app]. rewrite IH. simpl.
        destruct (Str.isspace x), (has_space a), (has_space b); done. }
      unfold String.rev in *. cbn [String.rev_app]. rewrite Hra.
      destruct cur as [acc|]; simpl in *.
      * destruct Hcur as [_ Hcur]. rewrite Hra in Hcur.
        apply orb_false_iff in Hcur as [-> _]. simpl. by rewrite Hc.
      * by rewrite Hc.
Qed.

Lemma split_items s :
  Forall (λ item, item ≠ "" ∧ has_space item = false) (Str.split s).
Proof. by apply split_go_items. Qed.

Lemma split_spec_go_no_comma s : ∀ cur,
  has_comma s = false → split_spec_go cur s = Str.split_go cur s.
Proof.
  induction s as [|c s IH]; intros cur; [done|].
  cbn [has_comma split_spec_go Str.split_go]. intros [Hc Hs]%orb_false_iff.
  unfold is_delimiter_spec. rewrite Hc, orb_false_r.
  destruct (Str.isspace c); by rewrite IH.
Qed.

(** On a text without commas the spec's reading and [str.split] agree. *)
Lemma split_spec_no_comma s : has_comma s = false → split_spec s = Str.split s.
Proof. apply split_spec_go_no_comma. Qed.

Lemma comma_free_get store d k s :
  comma_free store d = true → Dict.get d k = Some (VStr s) →
  is_list_attr (store !! k) = true → has_comma s = false.
Proof.
  unfold comma_free. induction d as [|[k' v'] d IH]; simpl; [done|].
  rewrite andb_true_iff. intros [Hhd Htl].
  destruct (String.eqb_spec k' k) as [->|Hne].
  - intros [= ->] Hlist. rewrite Hlist in Hhd. by apply negb_true_iff.
  - by apply IH.
Qed.

(** C3 (amended): on a fresh configuration, for arguments whose keys are
    attribute names, and every key [k] that the argument mapping gives a
    non-null value [v], after the merge loop the attribute [k] holds
    [v.split()], the items of the text [v] between runs of white space,
    exactly when the default attribute [k] is a list, and holds [v] itself
    otherwise, whether or not [k] is an attribute of the defaults.  The
    texts given to list attributes hold no comma: there [str.split] and the
    spec's reading of the split agree.  Keys given [None] and attributes
    not named by the mapping keep their defaults; no effect is performed. *)
Theorem merge_args_assigns args :
  Dict.wf args → attribute_names args = true →
  splittable __init__ args = true → comma_free __init__ args = true →
  ∃ h', merge_args args HParameters = (Ok (), h') ∧ trace h' = [] ∧
    (∀ k v, Dict.get args k = Some v → v ≠ VNone →
       match __init__ !! k with
       | Some (VList _) =>
           ∃ s, v = VStr s ∧ self h' !! k = Some (VList (Str.split s)) ∧
                Str.split s = split_spec s ∧
                Forall (λ item, item ≠ "" ∧ has_space item = false) (Str.split s)
       | _ => self h' !! k = Some v
       end) ∧
    (∀ k, Dict.get args k = None ∨ Dict.get args k = Some VNone →
       self h' !! k = __init__ !! k).
Proof.
  intros Hwf _ Hsplit Hcomma.
  destruct (merge_args_run __init__ args [] Hwf Hsplit) as (h' & Hrun & Htr & Hin & Hout).
  exists h'. split_and!; [done..| |].
  - intros k v Hget Hv. specialize (Hin k v Hget).
    pose proof (splittable_get _ _ _ _ Hsplit Hget) as Hstr.
    assert (∀ s, v = VStr s → is_list_attr (__init__ !! k) = true →
                 has_comma s = false) as Hfree.
    { intros s ->. by apply (comma_free_get __init__ args). }
    revert Hin Hstr Hfree. generalize (__init__ !! k). intros cur Hin Hstr Hfree.
    unfold merged in Hin.
    destruct v; try done; destruct cur as [[]|]; simpl in *;
      try done; try (by specialize (Hstr eq_refl)).
    eexists. split_and!; [done..| |apply split_items].
    symmetry. apply split_spec_no_comma. by apply Hfree.
  - intros k [Hget|Hget]; [by apply Hout|]. by rewrite (Hin k VNone Hget).
Qed.

Lemma merge_args_assigns_witness :
  ∃ h', merge_args [("root", VStr "root_dir"); ("datasets", VStr "set1 set2");
                    ("lr", VNone); ("new_param_float", VFloat 123456 (-5))]
          HParameters = (Ok (), h') ∧ trace h' = [] ∧
    (∀ k v, Dict.get [("root", VStr "root_dir"); ("datasets", VStr "set1 set2");
                      ("lr", VNone); ("new_param_float", VFloat 123456 (-5))] k
            = Some v → v ≠ VNone →
       match __init__ !! k with
       | Some (VList _) =>
           ∃ s, v = VStr s ∧ self h' !! k = Some (VList (Str.split s)) ∧
                Str.split s = split_spec s ∧
                Forall (λ item, item ≠ "" ∧ has_space item = false) (Str.split s)
       | _ => self h' !! k = Some v
       end) ∧
    (∀ k, Dict.get [("root", VStr "root_dir"); ("datasets", VStr "set1 set2");
                    ("lr", VNone); ("new_param_float", VFloat 123456 (-5))] k = None ∨
          Dict.get [("root", VStr "root_dir"); ("datasets", VStr "set1 set2");
                    ("lr", VNone); ("new_param_float", VFloat 123456 (-5))] k
            = Some VNone →
       self h' !! k = __init__ !! k).
Proof.
  apply merge_args_assigns.
  - unfold Dict.wf. apply (bool_decide_unpack _). vm_compute. exact I.
  - vm_compute. reflexivity.
  - reflexivity.
  - reflexivity.
Defined.

(** C3 as stated fails on a comma-delimited value: read as the spec reads it
    the text has three items, and the merge stores it as one. *)
Lemma merge_args_comma_not_split :
  split_spec "set1,set2,set3" = ["set1"; "set2"; "set3"] ∧
  self (merge_args [("datasets", VStr "set1,set2,set3")] HParameters).2 !! "datasets"
    = Some (VList ["set1,set2,set3"]) ∧
  VList ["set1,set2,set3"] ≠ VList (split_spec "set1,set2,set3").
Proof. split_and!; [reflexivity|reflexivity|discriminate]. Qed.

(** ** The blocks of [_init] *)

Section blocks.
Variable env : Env.

(** Which attributes each block leaves alone. *)
Lemma init_log_path_preserves k :
  k ≠ "log_path" → k ≠ "writer" → preserves k (init_log_path env).
Proof. intros. unfold init_log_path. frames. Qed.

Lemma init_use_cuda_preserves k :
  k ≠ "use_cuda" → preserves k (init_use_cuda env).
Proof. intros. unfold init_use_cuda. frames. Qed.

Lemma init_splits_preserves k :
  k ≠ "dataset_name_of_file" → k ≠ "dataset_of_file" → k ≠ "splits_of_file" →
  preserves k (init_splits env).
Proof. intros. unfold init_splits, resolve_splits_file. frames. Qed.

Lemma init_paths_preserves k :
  k ≠ "weights_path" → k ≠ "pred_path" → preserves k init_paths.
Proof. intros. unfold init_paths, derive_paths. frames. Qed.

Lemma init_mode_preserves k :
  k ≠ "weights_of_file" → preserves k init_mode.
Proof. intros. unfold init_mode, weights_lookup. frames. Qed.

Lemma init_logger_preserves k :
  k ≠ "logger" → preserves k init_logger.
Proof. intros. unfold init_logger. frames. Qed.

(** Blocks without outside effects. *)
Lemma init_use_cuda_silent : silent (init_use_cuda env).
Proof. unfold init_use_cuda. frames. Qed.

Lemma init_splits_silent : silent (init_splits env).
Proof. unfold init_splits, resolve_splits_file. frames. Qed.

Lemma init_paths_silent : silent init_paths.
Proof. unfold init_paths, derive_paths. frames. Qed.
End blocks.

(** Reading an attribute the context determines, and running the
    statements that cannot raise. *)
Ltac lookup :=
  cbn [self trace];
  repeat first [rewrite lookup_insert_eq | rewrite lookup_insert_ne by done];
  first [reflexivity | eassumption].

Ltac run_getattr :=
  lazymatch goal with
  | |- context [(getattr ?k ≫= _) ?h] =>
      let H := fresh in
      eassert (self h !! k = Some _) as H by lookup;
      rewrite (bind_ok _ _ _ _ _ (getattr_ok _ _ _ H)); clear H; cbv beta
  end.

Ltac run_pure :=
  rewrite bind_run; cbn [setattr emit lift ret mret M_ret fspath self trace]; cbv beta.

Lemma preserves_run {A} k (m : M A) h r h' :
  preserves k m → m h = (r, h') → self h' !! k = self h !! k.
Proof. intros Hm Hrun. specialize (Hm h). by rewrite Hrun in Hm. Qed.

Lemma silent_run {A} (m : M A) h r h' :
  silent m → m h = (r, h') → trace h' = trace h.
Proof. intros Hm Hrun. specialize (Hm h). by rewrite Hrun in Hm. Qed.

Lemma setitem_ok k key v d h :
  self h !! k = Some (VDict d) →
  setitem k key v h = (Ok (), Heap (<[k := VDict (Dict.set d key v)]> (self h)) (trace h)).
Proof. intros Hd. unfold setitem. by run_getattr. Qed.

Ltac run_setitem :=
  lazymatch goal with
  | |- context [(setitem ?k ?key ?v ≫= _) ?h] =>
      let H := fresh in
      eassert (self h !! k = Some (VDict _)) as H by lookup;
      rewrite (bind_ok _ _ _ _ _ (setitem_ok k key v _ h H)); clear H;
      cbn [self trace]; cbv beta
  end.

Lemma os_path_join_ok a b h :
  os_path_join (VStr a) (VStr b) h = (Ok (os_path.join a b), h).
Proof. reflexivity. Qed.

(** [os.path.join] refuses a first argument that is not a path: a dict, for
    one. *)
Lemma os_path_join_dict d b h :
  os_path_join (VDict d) b h = (Raise TypeError, h).
Proof. reflexivity. Qed.

Section block_runs.
Variable env : Env.

(** "Experiment name": with a class in [model_class] the block names the
    run directory, opens the metrics writer on it and cannot fail. *)
Lemma init_log_path_ok h c :
  self h !! "model_class" = Some (VClass c) →
  init_log_path env h =
    (Ok (), Heap (<["writer" := VWriter (run_dir env c)]>
                    (<["log_path" := VStr (run_dir env c)]> (self h)))
              (trace h ++ [SummaryWriter_open (run_dir env c)])).
Proof.
  intros Hc. unfold init_log_path. run_getattr.
  rewrite bind_run. cbn [lift dunder_name]. run_pure. run_getattr.
  by do 2 run_pure.
Qed.

(** Without a class it raises at [__name__], before any effect. *)
Lemma init_log_path_inv h r h' :
  init_log_path env h = (r, h') →
  (r = Raise AttributeError ∧ h' = h) ∨
  (∃ c, self h !! "model_class" = Some (VClass c) ∧ r = Ok () ∧
     h' = Heap (<["writer" := VWriter (run_dir env c)]>
                  (<["log_path" := VStr (run_dir env c)]> (self h)))
            (trace h ++ [SummaryWriter_open (run_dir env c)])).
Proof.
  destruct (self h !! "model_class") as [v|] eqn:Hc.
  - destruct v as [| | | | | | |c| |];
      try (unfold init_log_path; run_getattr; rewrite bind_run;
           intros [= <- <-]; by left).
    rewrite (init_log_path_ok h c Hc). intros [= <- <-]. right. by exists c.
  - unfold init_log_path. rewrite bind_run. unfold getattr. rewrite Hc.
    intros [= <- <-]. by left.
Qed.

(** "Handle use_cuda flag" *)
Lemma init_use_cuda_ok h v :
  self h !! "use_cuda" = Some v →
  init_use_cuda env h =
    (Ok (), Heap (<["use_cuda" := VBool (cuda_flag env v)]> (self h)) (trace h)).
Proof.
  intros Hv. unfold init_use_cuda, cuda_flag. run_getattr.
  by destruct (eq_str v "default"), (eq_str v "yes").
Qed.

(** "Logger": with a log directory the block cannot fail. *)
Lemma init_logger_ok h L :
  self h !! "log_path" = Some (VStr L) →
  init_logger h =
    (Ok (), Heap (<["logger" := VLogger "summarizer"]> (self h))
              (trace h ++ logger_events L)).
Proof.
  intros HL. unfold init_logger. do 2 run_pure. run_getattr.
  rewrite bind_run, os_path_join_ok. do 3 run_pure.
  unfold emit, logger_events. cbn [self trace]. by rewrite <-!app_assoc.
Qed.
End block_runs.

(** ** Artifact paths *)

Lemma artifact_paths_notin L suffix files d f :
  f ∉ files → Dict.get (artifact_paths L suffix files d) f = Dict.get d f.
Proof.
  unfold artifact_paths. revert d.
  induction files as [|x files IH]; intros d Hf; [done|].
  apply not_elem_of_cons in Hf as [Hne Hf]. cbn [fold_left].
  rewrite IH by done. by apply get_set_ne.
Qed.

(** Every splits file is a key, bound to the path named after its basename;
    what an earlier binding of the key held does not matter. *)
Lemma artifact_paths_in L suffix files d f :
  f ∈ files →
  Dict.get (artifact_paths L suffix files d) f
    = Some (VStr (os_path.join L (os_path.basename f +:+ suffix))).
Proof.
  revert d. induction files as [|x files IH]; intros d Hf.
  { by apply elem_of_nil in Hf. }
  destruct (decide (f ∈ files)) as [Hin|Hout].
  - unfold artifact_paths. cbn [fold_left]. by apply IH.
  - apply elem_of_cons in Hf as [->|?]; [|done].
    unfold artifact_paths. cbn [fold_left].
    fold (artifact_paths L suffix files
            (Dict.set d x (VStr (os_path.join L (os_path.basename x +:+ suffix))))).
    rewrite artifact_paths_notin by done. apply get_set_eq.
Qed.

Lemma derive_paths_ok h L f dw dp :
  self h !! "log_path" = Some (VStr L) →
  self h !! "weights_path" = Some (VDict dw) →
  self h !! "pred_path" = Some (VDict dp) →
  derive_paths f h =
    (Ok (),
     Heap (<["pred_path" :=
               VDict (Dict.set dp f (VStr (os_path.join L (os_path.basename f +:+ "_preds.h5"))))]>
             (<["weights_path" :=
                  VDict (Dict.set dw f (VStr (os_path.join L (os_path.basename f +:+ ".pth"))))]>
                (self h)))
       (trace h)).
Proof.
  intros HL Hw Hp. unfold derive_paths. run_getattr.
  rewrite bind_run, os_path_join_ok. run_setitem. run_getattr.
  rewrite bind_run, os_path_join_ok.
  erewrite setitem_ok by lookup. done.
Qed.

Lemma derive_paths_loop files : ∀ h L dw dp,
  self h !! "log_path" = Some (VStr L) →
  self h !! "weights_path" = Some (VDict dw) →
  self h !! "pred_path" = Some (VDict dp) →
  ∃ h', for_each files derive_paths h = (Ok (), h') ∧
    trace h' = trace h ∧
    self h' !! "weights_path" = Some (VDict (artifact_paths L ".pth" files dw)) ∧
    self h' !! "pred_path" = Some (VDict (artifact_paths L "_preds.h5" files dp)).
Proof.
  induction files as [|f files IH]; intros h L dw dp HL Hw Hp.
  { by exists h. }
  cbn [for_each]. rewrite (bind_ok _ _ _ _ _ (derive_paths_ok h L f dw dp HL Hw Hp)).
  cbv beta.
  lazymatch goal with
  | |- context [for_each files derive_paths ?h1] =>
      destruct (IH h1 L _ _ ltac:(lookup) ltac:(lookup) ltac:(lookup))
        as (h' & Hrun & Htr & Hw' & Hp')
  end.
  exists h'. by rewrite Hrun.
Qed.

(** The block "Destination for weights and predictions" on a log directory
    [L] and a list of splits files. *)
Lemma init_paths_ok h L files :
  self h !! "log_path" = Some (VStr L) →
  self h !! "splits_files" = Some (VList files) →
  ∃ h', init_paths h = (Ok (), h') ∧
    trace h' = trace h ∧
    self h' !! "weights_path" = Some (VDict (artifact_paths L ".pth" files [])) ∧
    self h' !! "pred_path" = Some (VDict (artifact_paths L "_preds.h5" files [])).
Proof.
  intros HL Hfiles. unfold init_paths. do 2 run_pure. run_getattr.
  rewrite bind_run. cbn [lift iter].
  lazymatch goal with
  | |- context [for_each files derive_paths ?h1] =>
      destruct (derive_paths_loop files h1 L _ _
                  ltac:(lookup) ltac:(lookup) ltac:(lookup))
        as (h' & Hrun & Hrest)
  end.
  exists h'. by rewrite Hrun.
Qed.

(** C5: for every log directory [L] and list of splits files, the block
    "Destination for weights and predictions" succeeds without any outside
    effect and binds every splits file [s] to
    [join(L, basename(s) + ".pth")] in [weights_path] and to
    [join(L, basename(s) + "_preds.h5")] in [pred_path]; for [logs/171_sumgan]
    and [a/b/tvsum_splits.json] these are
    [logs/171_sumgan/tvsum_splits.json.pth] and
    [logs/171_sumgan/tvsum_splits.json_preds.h5]. *)
Theorem artifact_paths_derived h L files :
  self h !! "log_path" = Some (VStr L) →
  self h !! "splits_files" = Some (VList files) →
  (∃ h' dw dp,
      init_paths h = (Ok (), h') ∧ trace h' = trace h ∧
      self h' !! "weights_path" = Some (VDict dw) ∧
      self h' !! "pred_path" = Some (VDict dp) ∧
      ∀ s, s ∈ files →
        Dict.get dw s = Some (VStr (os_path.join L (os_path.basename s +:+ ".pth"))) ∧
        Dict.get dp s = Some (VStr (os_path.join L (os_path.basename s +:+ "_preds.h5")))) ∧
  os_path.join "logs/171_sumgan" (os_path.basename "a/b/tvsum_splits.json" +:+ ".pth")
    = "logs/171_sumgan/tvsum_splits.json.pth" ∧
  os_path.join "logs/171_sumgan" (os_path.basename "a/b/tvsum_splits.json" +:+ "_preds.h5")
    = "logs/171_sumgan/tvsum_splits.json_preds.h5".
Proof.
  intros HL Hfiles. split; [|by split].
  destruct (init_paths_ok h L files HL Hfiles) as (h' & Hrun & Htr & Hw & Hp).
  eexists h', _, _. split_and!; [done..|].
  intros s Hs. by rewrite !artifact_paths_in.
Qed.

Lemma artifact_paths_derived_witness :
  ∃ h' dw dp,
    init_paths (Heap (<["log_path" := VStr "logs/171_sumgan"]>
                        (<["splits_files" := VList ["a/b/tvsum_splits.json"] ]>
                           __init__)) [])
      = (Ok (), h') ∧
    self h' !! "weights_path" = Some (VDict dw) ∧
    self h' !! "pred_path" = Some (VDict dp) ∧
    Dict.get dw "a/b/tvsum_splits.json"
      = Some (VStr "logs/171_sumgan/tvsum_splits.json.pth") ∧
    Dict.get dp "a/b/tvsum_splits.json"
      = Some (VStr "logs/171_sumgan/tvsum_splits.json_preds.h5").
Proof.
  destruct (artifact_paths_derived
              (Heap (<["log_path" := VStr "logs/171_sumgan"]>
                       (<["splits_files" := VList ["a/b/tvsum_splits.json"] ]>
                          __init__)) [])
              "logs/171_sumgan" ["a/b/tvsum_splits.json"])
    as [(h' & dw & dp & Hrun & _ & Hw & Hp & Hpaths) _];
    [vm_compute; reflexivity..|].
  destruct (Hpaths "a/b/tvsum_splits.json") as [Hgw Hgp]; [by left|].
  exists h', dw, dp. split_and!; [exact Hrun|exact Hw|exact Hp|exact Hgw|exact Hgp].
Defined.

(** ** The weights path is always a dictionary when the mode is checked *)

Section maintains.
Context (P : gmap string value → Prop).

Lemma maintains_same {A} (m : M A) :
  (∀ h, self (m h).2 = self h) → maintains P m.
Proof. intros Hm h HP. by rewrite Hm. Qed.

Lemma maintains_bind {A B} (m : M A) (f : A → M B) :
  maintains P m → (∀ a, maintains P (f a)) → maintains P (m ≫= f).
Proof.
  intros Hm Hf h HP. rewrite bind_run. specialize (Hm h HP).
  destruct (m h) as [[a|e] h1]; simpl in *; [|done]. by apply Hf.
Qed.

Lemma maintains_for_each {A} (l : list A) body :
  (∀ x, maintains P (body x)) → maintains P (for_each l body).
Proof.
  intros Hbody. induction l as [|x l IH]; [by intros h|].
  cbn [for_each]. apply maintains_bind; [apply Hbody|done].
Qed.
End maintains.

Lemma os_path_join_heap a b h : (os_path_join a b h).2 = h.
Proof. by destruct a, b. Qed.

Lemma getattr_heap k h : (getattr k h).2 = h.
Proof. unfold getattr. by destruct (self h !! k). Qed.

Lemma setitem_keeps_dict k k' key v :
  maintains (λ s, ∃ d, s !! k = Some (VDict d)) (setitem k' key v).
Proof.
  intros h [d Hd]. unfold setitem. rewrite bind_run. unfold getattr.
  destruct (self h !! k') as [[]|] eqn:Hk; simpl; eauto.
  destruct (decide (k' = k)) as [->|Hne].
  - rewrite lookup_insert_eq. eauto.
  - rewrite lookup_insert_ne by done. eauto.
Qed.

Lemma derive_paths_keeps_dict f :
  maintains (λ s, ∃ d, s !! "weights_path" = Some (VDict d)) (derive_paths f).
Proof.
  unfold derive_paths.
  apply maintains_bind; [|intros ?].
  { apply maintains_same. intros h. by rewrite getattr_heap. }
  apply maintains_bind; [|intros ?].
  { apply maintains_same. intros h. by rewrite os_path_join_heap. }
  apply maintains_bind; [apply setitem_keeps_dict|intros ?].
  apply maintains_bind; [|intros ?].
  { apply maintains_same. intros h. by rewrite getattr_heap. }
  apply maintains_bind; [|intros ?].
  { apply maintains_same. intros h. by rewrite os_path_join_heap. }
  apply setitem_keeps_dict.
Qed.

(** Whatever the object held before, and whether the block then completes
    or raises, after "Destination for weights and predictions" has started
    the attribute [weights_path] holds a dictionary. *)
Lemma init_paths_weights_path_dict h : is_dict_attr "weights_path" (init_paths h).2.
Proof.
  unfold init_paths, is_dict_attr. rewrite bind_run. cbn [setattr].
  lazymatch goal with
  | |- context [(?m ≫= ?f) ?h1] =>
      assert (maintains (λ s, ∃ d, s !! "weights_path" = Some (VDict d)) (m ≫= f)) as Hm
  end.
  { apply maintains_bind; [|intros ?].
    { intros h0 [d Hd]. cbn [setattr self snd]. rewrite lookup_insert_ne by done. eauto. }
    apply maintains_bind; [|intros ?].
    { apply maintains_same. intros h0. by rewrite getattr_heap. }
    apply maintains_bind; [by apply maintains_same|intros ?].
    apply maintains_for_each, derive_paths_keeps_dict. }
  apply Hm. cbn [self]. rewrite lookup_insert_eq. eauto.
Qed.

(** ** The test/train block *)

(** With a dictionary in [weights_path], the join of the first splits file
    raises. *)
Lemma weights_lookup_dict f d h :
  self h !! "weights_path" = Some (VDict d) →
  weights_lookup f h = (Raise TypeError, h).
Proof.
  intros Hw. unfold weights_lookup. run_getattr.
  by rewrite bind_run, os_path_join_dict.
Qed.

(** Test mode with a dictionary in [weights_path]: the assertion passes, and
    the loop raises at its first splits file. *)
Lemma init_mode_test h t d :
  self h !! "test" = Some t → truthy t = true →
  self h !! "weights_path" = Some (VDict d) →
  init_mode h =
    match self h !! "splits_files" with
    | None => (Raise AttributeError,
               Heap (<["weights_of_file" := VDict []]> (self h)) (trace h))
    | Some v =>
        match iter v with
        | Raise e => (Raise e, Heap (<["weights_of_file" := VDict []]> (self h)) (trace h))
        | Ok [] => (Ok (), Heap (<["weights_of_file" := VDict []]> (self h)) (trace h))
        | Ok (_ :: _) =>
            (Raise TypeError, Heap (<["weights_of_file" := VDict []]> (self h)) (trace h))
        end
    end.
Proof.
  intros Ht Htrue Hw. unfold init_mode. run_getattr. rewrite Htrue.
  run_getattr. cbn [is_none]. do 2 run_pure.
  destruct (self h !! "splits_files") as [v|] eqn:Hsf.
  - run_getattr. rewrite bind_run. unfold lift.
    destruct (iter v) as [[|f fs]|e]; [done| |done].
    cbn [for_each]. erewrite bind_raise; [done|].
    eapply weights_lookup_dict. lookup.
  - rewrite bind_run. unfold getattr. cbn [self].
    rewrite lookup_insert_ne by done. by rewrite Hsf.
Qed.

(** Train mode: the log directory is created. *)
Lemma init_mode_train h t :
  self h !! "test" = Some t → truthy t = false →
  init_mode h =
    match self h !! "log_path" with
    | Some (VStr L) => (Ok (), Heap (self h) (trace h ++ [makedirs L]))
    | Some _ => (Raise TypeError, h)
    | None => (Raise AttributeError, h)
    end.
Proof.
  intros Ht Hfalse. unfold init_mode. run_getattr. rewrite Hfalse.
  rewrite bind_run. unfold getattr.
  destruct (self h !! "log_path") as [[]|]; done.
Qed.

Lemma init_mode_no_test h :
  self h !! "test" = None → init_mode h = (Raise AttributeError, h).
Proof. intros Ht. unfold init_mode. rewrite bind_run. unfold getattr. by rewrite Ht. Qed.

(** The assertion "No weights path given" cannot fail once [weights_path]
    holds a dictionary. *)
Lemma init_mode_no_assert h msg :
  is_dict_attr "weights_path" h → (init_mode h).1 ≠ Raise (AssertionError msg).
Proof.
  intros [d Hw]. destruct (self h !! "test") as [t|] eqn:Ht.
  - destruct (truthy t) eqn:Htruthy.
    + rewrite (init_mode_test h t d) by done.
      destruct (self h !! "splits_files") as [[]|]; try done; simpl.
      * by destruct (chars s).
      * by destruct l.
      * by destruct (Dict.keys d0).
    + rewrite (init_mode_train h t) by done.
      by destruct (self h !! "log_path") as [[]|].
  - by rewrite init_mode_no_test.
Qed.

(** A failure of the block has no outside effect. *)
Lemma init_mode_raise_silent h e h' :
  is_dict_attr "weights_path" h →
  init_mode h = (Raise e, h') → trace h' = trace h.
Proof.
  intros [d Hw]. destruct (self h !! "test") as [t|] eqn:Ht.
  - destruct (truthy t) eqn:Htruthy.
    + rewrite (init_mode_test h t d) by done.
      destruct (self h !! "splits_files") as [v|]; [|by intros; simplify_eq].
      destruct (iter v) as [[|??]|?]; by intros; simplify_eq.
    + rewrite (init_mode_train h t) by done.
      destruct (self h !! "log_path") as [[]|]; by intros; simplify_eq.
  - rewrite init_mode_no_test by done. by intros; simplify_eq.
Qed.

(** In test mode the block completes only when there is no splits file, and
    then it has derived no weights-lookup path. *)
Lemma init_mode_test_ok h t h' :
  self h !! "test" = Some t → truthy t = true →
  is_dict_attr "weights_path" h →
  init_mode h = (Ok (), h') →
  self h' !! "weights_of_file" = Some (VDict []) ∧
  ∃ v, self h !! "splits_files" = Some v ∧ iter v = Ok [].
Proof.
  intros Ht Htruthy [d Hw]. rewrite (init_mode_test h t d) by done.
  destruct (self h !! "splits_files") as [v|]; [|done].
  destruct (iter v) as [[|??]|?] eqn:Hiter; [|done..].
  intros [= <-]. cbn [self]. rewrite lookup_insert_eq. eauto.
Qed.

(** ** Runs of [_init] *)

(** A run of [_init] stops at the first block that raises. *)
Lemma _init_stages env h r h' :
  _init env h = (r, h') →
  (∃ e, r = Raise e ∧ init_log_path env h = (Raise e, h')) ∨
  ∃ h1, init_log_path env h = (Ok (), h1) ∧
  ((∃ e, r = Raise e ∧ init_use_cuda env h1 = (Raise e, h')) ∨
   ∃ h2, init_use_cuda env h1 = (Ok (), h2) ∧
   ((∃ e, r = Raise e ∧ init_splits env h2 = (Raise e, h')) ∨
    ∃ h3, init_splits env h2 = (Ok (), h3) ∧
    ((∃ e, r = Raise e ∧ init_paths h3 = (Raise e, h')) ∨
     ∃ h4, init_paths h3 = (Ok (), h4) ∧
     ((∃ e, r = Raise e ∧ init_mode h4 = (Raise e, h')) ∨
      ∃ h5, init_mode h4 = (Ok (), h5) ∧ init_logger h5 = (r, h'))))).
Proof.
  unfold _init. intros Hrun.
  apply bind_inv in Hrun as [(e & ? & ->)|([] & h1 & ? & Hrun)]; [left; eauto|].
  right. exists h1. split; [done|].
  apply bind_inv in Hrun as [(e & ? & ->)|([] & h2 & ? & Hrun)]; [left; eauto|].
  right. exists h2. split; [done|].
  apply bind_inv in Hrun as [(e & ? & ->)|([] & h3 & ? & Hrun)]; [left; eauto|].
  right. exists h3. split; [done|].
  apply bind_inv in Hrun as [(e & ? & ->)|([] & h4 & ? & Hrun)]; [left; eauto|].
  right. exists h4. split; [done|].
  apply bind_inv in Hrun as [(e & ? & ->)|([] & h5 & ? & Hrun)]; [left; eauto|].
  right. exists h5. by split.
Qed.

Lemma _init_no_class env h :
  (∀ c, self h !! "model_class" ≠ Some (VClass c)) →
  _init env h = (Raise AttributeError, h).
Proof.
  intros Hc. unfold _init. rewrite bind_run.
  destruct (init_log_path env h) as [r h'] eqn:Hrun.
  apply init_log_path_inv in Hrun as [[-> ->]|(c & Hc' & _)]; [done|].
  by destruct (Hc c).
Qed.

(** The frame of each block, for a given run. *)
Lemma init_use_cuda_frame env h r h' k :
  init_use_cuda env h = (r, h') → k ≠ "use_cuda" → self h' !! k = self h !! k.
Proof.
  intros Hrun ?. by apply (preserves_run k _ _ _ _ (init_use_cuda_preserves env k
    ltac:(done)) Hrun).
Qed.

Lemma init_splits_frame env h r h' k :
  init_splits env h = (r, h') →
  k ≠ "dataset_name_of_file" → k ≠ "dataset_of_file" → k ≠ "splits_of_file" →
  self h' !! k = self h !! k.
Proof.
  intros Hrun ???. by apply (preserves_run k _ _ _ _ (init_splits_preserves env k
    ltac:(done) ltac:(done) ltac:(done)) Hrun).
Qed.

Lemma init_paths_frame h r h' k :
  init_paths h = (r, h') → k ≠ "weights_path" → k ≠ "pred_path" →
  self h' !! k = self h !! k.
Proof.
  intros Hrun ??. by apply (preserves_run k _ _ _ _ (init_paths_preserves k
    ltac:(done) ltac:(done)) Hrun).
Qed.

Lemma init_mode_frame h r h' k :
  init_mode h = (r, h') → k ≠ "weights_of_file" → self h' !! k = self h !! k.
Proof.
  intros Hrun ?. by apply (preserves_run k _ _ _ _ (init_mode_preserves k
    ltac:(done)) Hrun).
Qed.

(** What a run of [_init] on an object whose [model_class] is a class does:
    the run directory and the class stay as first computed; a failure comes
    after the metrics writer was opened and before anything else; a
    completed run has created the directory in train mode only and then set
    up the logger. *)
Lemma _init_run env h c r h' :
  self h !! "model_class" = Some (VClass c) →
  _init env h = (r, h') →
  self h' !! "log_path" = Some (VStr (run_dir env c)) ∧
  self h' !! "model_class" = Some (VClass c) ∧
  match r with
  | Raise e => trace h' = trace h ++ [SummaryWriter_open (run_dir env c)]
  | Ok _ =>
      is_dict_attr "weights_path" h' ∧
      (∀ v, self h !! "use_cuda" = Some v →
            self h' !! "use_cuda" = Some (VBool (cuda_flag env v))) ∧
      ∃ t, self h !! "test" = Some t ∧
        if truthy t
        then self h' !! "weights_of_file" = Some (VDict []) ∧
             trace h' = trace h ++ SummaryWriter_open (run_dir env c)
                          :: logger_events (run_dir env c)
        else trace h' = trace h ++ SummaryWriter_open (run_dir env c)
                          :: makedirs (run_dir env c)
                          :: logger_events (run_dir env c)
  end.
Proof.
  intros Hc Hrun. apply _init_stages in Hrun.
  rewrite (init_log_path_ok env h c Hc) in Hrun.
  destruct Hrun as [(e & _ & ?)|(h1 & [= <-] & Hrun)]; [done|].
  set (h1 := Heap _ _) in Hrun.
  assert (self h1 !! "log_path" = Some (VStr (run_dir env c))) as HL1
    by (subst h1; lookup).
  assert (self h1 !! "model_class" = Some (VClass c)) as Hc1 by (subst h1; lookup).
  assert (trace h1 = trace h ++ [SummaryWriter_open (run_dir env c)]) as Htr1 by done.
  assert (self h1 !! "use_cuda" = self h !! "use_cuda") as Hu1 by (subst h1; lookup).
  assert (self h1 !! "test" = self h !! "test") as Ht1 by (subst h1; lookup).
  clearbody h1.
  destruct Hrun as [(e & -> & Hrun)|(h2 & Hrun2 & Hrun)].
  { rewrite (silent_run _ _ _ _ (init_use_cuda_silent env) Hrun).
    by rewrite !(init_use_cuda_frame _ _ _ _ _ Hrun) by done. }
  pose proof (silent_run _ _ _ _ (init_use_cuda_silent env) Hrun2) as Htr2.
  pose proof (init_use_cuda_frame _ _ _ _ "log_path" Hrun2 ltac:(done)) as HL2.
  pose proof (init_use_cuda_frame _ _ _ _ "model_class" Hrun2 ltac:(done)) as Hc2.
  pose proof (init_use_cuda_frame _ _ _ _ "test" Hrun2 ltac:(done)) as Ht2.
  rewrite HL1 in HL2. rewrite Hc1 in Hc2. rewrite Ht1 in Ht2. rewrite Htr1 in Htr2.
  assert (∀ v, self h !! "use_cuda" = Some v →
               self h2 !! "use_cuda" = Some (VBool (cuda_flag env v))) as Hu2.
  { intros v Hv. rewrite <-Hu1 in Hv. rewrite (init_use_cuda_ok env h1 v Hv) in Hrun2.
    injection Hrun2 as <-. lookup. }
  clear dependent h1.
  destruct Hrun as [(e & -> & Hrun)|(h3 & Hrun3 & Hrun)].
  { rewrite (silent_run _ _ _ _ (init_splits_silent env) Hrun).
    by rewrite !(init_splits_frame _ _ _ _ _ Hrun) by done. }
  pose proof (silent_run _ _ _ _ (init_splits_silent env) Hrun3) as Htr3.
  pose proof (init_splits_frame _ _ _ _ "log_path" Hrun3
                ltac:(done) ltac:(done) ltac:(done)) as HL3.
  pose proof (init_splits_frame _ _ _ _ "model_class" Hrun3
                ltac:(done) ltac:(done) ltac:(done)) as Hc3.
  pose proof (init_splits_frame _ _ _ _ "test" Hrun3
                ltac:(done) ltac:(done) ltac:(done)) as Ht3.
  pose proof (init_splits_frame _ _ _ _ "use_cuda" Hrun3
                ltac:(done) ltac:(done) ltac:(done)) as Hu3.
  rewrite HL2 in HL3. rewrite Hc2 in Hc3. rewrite Ht2 in Ht3. rewrite Htr2 in Htr3.
  destruct Hrun as [(e & -> & Hrun)|(h4 & Hrun4 & Hrun)].
  { rewrite (silent_run _ _ _ _ init_paths_silent Hrun).
    by rewrite !(init_paths_frame _ _ _ _ Hrun) by done. }
  pose proof (silent_run _ _ _ _ init_paths_silent Hrun4) as Htr4.
  pose proof (init_paths_frame _ _ _ "log_path" Hrun4 ltac:(done) ltac:(done)) as HL4.
  pose proof (init_paths_frame _ _ _ "model_class" Hrun4 ltac:(done) ltac:(done)) as Hc4.
  pose proof (init_paths_frame _ _ _ "test" Hrun4 ltac:(done) ltac:(done)) as Ht4.
  pose proof (init_paths_frame _ _ _ "use_cuda" Hrun4 ltac:(done) ltac:(done)) as Hu4.
  rewrite HL3 in HL4. rewrite Hc3 in Hc4. rewrite Ht3 in Ht4. rewrite Htr3 in Htr4.
  rewrite Hu3 in Hu4.
  assert (is_dict_attr "weights_path" h4) as Hw4.
  { pose proof (init_paths_weights_path_dict h3) as Hw. by rewrite Hrun4 in Hw. }
  clear dependent h3.
  destruct Hrun as [(e & -> & Hrun)|(h5 & Hrun5 & Hrun)].
  { rewrite (init_mode_raise_silent _ _ _ Hw4 Hrun).
    by rewrite !(init_mode_frame _ _ _ _ Hrun) by done. }
  pose proof (init_mode_frame _ _ _ "log_path" Hrun5 ltac:(done)) as HL5.
  pose proof (init_mode_frame _ _ _ "model_class" Hrun5 ltac:(done)) as Hc5.
  pose proof (init_mode_frame _ _ _ "use_cuda" Hrun5 ltac:(done)) as Hu5.
  pose proof (init_mode_frame _ _ _ "weights_path" Hrun5 ltac:(done)) as Hw5.
  rewrite HL4 in HL5. rewrite Hc4 in Hc5. rewrite Hu4 in Hu5.
  rewrite (init_logger_ok h5 _ HL5) in Hrun. injection Hrun as <- <-.
  cbn [self trace]. rewrite !lookup_insert_ne by done.
  split_and!; [done..| | |].
  - destruct Hw4 as [d Hd]. exists d. cbn [self].
    rewrite lookup_insert_ne by done. by rewrite Hw5.
  - intros v Hv. rewrite Hu5. by apply Hu2.
  - destruct (self h4 !! "test") as [t|] eqn:Ht.
    2:{ by rewrite init_mode_no_test in Hrun5. }
    exists t. split; [done|]. destruct (truthy t) eqn:Htruthy.
    + destruct (init_mode_test_ok h4 t h5 Ht Htruthy Hw4 Hrun5) as [Hwof _].
      split; [done|].
      destruct Hw4 as [d Hd]. rewrite (init_mode_test h4 t d) in Hrun5 by done.
      assert (trace h5 = trace h4) as ->.
      { destruct (self h4 !! "splits_files") as [v|]; [|done].
        destruct (iter v) as [[|??]|?]; by simplify_eq. }
      rewrite Htr4. by rewrite <-app_assoc.
    + rewrite (init_mode_train h4 t) in Hrun5 by done.
      rewrite HL4 in Hrun5. injection Hrun5 as <-. cbn [trace].
      rewrite Htr4. by rewrite <-!app_assoc.
Qed.

Lemma _init_ok_class env h h' :
  _init env h = (Ok (), h') → ∃ c, self h !! "model_class" = Some (VClass c).
Proof.
  intros Hrun. destruct (self h !! "model_class") as [v|] eqn:Hc.
  - destruct v; try (rewrite _init_no_class in Hrun; [done|congruence]).
    by eexists.
  - rewrite _init_no_class in Hrun; [done|congruence].
Qed.

(** ** The accelerator flag *)

(** C10: whatever value [v] the merge left in [use_cuda], the block "Handle
    use_cuda flag" cannot fail and stores a boolean; the boolean is still
    there when [_init] completes; it is the probe's answer for the string
    [default], true for the string [yes] and false for every other value,
    the boolean [True] included. *)
Theorem use_cuda_coerced env h v :
  self h !! "use_cuda" = Some v →
  init_use_cuda env h =
    (Ok (), Heap (<["use_cuda" := VBool (cuda_flag env v)]> (self h)) (trace h)) ∧
  (∀ h', _init env h = (Ok (), h') →
         self h' !! "use_cuda" = Some (VBool (cuda_flag env v))) ∧
  (v = VStr "default" → cuda_flag env v = cuda_is_available env) ∧
  (v = VStr "yes" → cuda_flag env v = true) ∧
  (v ≠ VStr "default" → v ≠ VStr "yes" → cuda_flag env v = false) ∧
  cuda_flag env (VBool true) = false.
Proof.
  intros Hv. split_and!.
  - by apply init_use_cuda_ok.
  - intros h' Hrun. destruct (_init_ok_class _ _ _ Hrun) as [c Hc].
    destruct (_init_run env h c _ h' Hc Hrun) as (_ & _ & _ & Hu & _). by apply Hu.
  - by intros ->.
  - by intros ->.
  - intros Hd Hy. unfold cuda_flag, eq_str. destruct v as [| | | |s| | | | |]; try done.
    destruct (String.eqb_spec s "default") as [->|_]; [done|].
    by destruct (String.eqb_spec s "yes") as [->|_].
  - done.
Qed.

Lemma use_cuda_coerced_witness :
  init_use_cuda example_env (Heap (<["use_cuda" := VBool true]> __init__) []) =
    (Ok (), Heap (<["use_cuda" := VBool (cuda_flag example_env (VBool true))]>
                    (<["use_cuda" := VBool true]> __init__)) []) ∧
  (∀ h', _init example_env (Heap (<["use_cuda" := VBool true]> __init__) []) = (Ok (), h') →
         self h' !! "use_cuda" = Some (VBool (cuda_flag example_env (VBool true)))) ∧
  (VBool true = VStr "default" →
     cuda_flag example_env (VBool true) = cuda_is_available example_env) ∧
  (VBool true = VStr "yes" → cuda_flag example_env (VBool true) = true) ∧
  (VBool true ≠ VStr "default" → VBool true ≠ VStr "yes" →
     cuda_flag example_env (VBool true) = false) ∧
  cuda_flag example_env (VBool true) = false.
Proof.
  assert (self (Heap (<["use_cuda" := VBool true]> __init__) []) !! "use_cuda"
          = Some (VBool true)) as Hv by (vm_compute; reflexivity).
  exact (use_cuda_coerced example_env _ (VBool true) Hv).
Defined.

(** A resolution given the boolean [True] for [use_cuda] completes with the
    flag off. *)
Example use_cuda_true_resolves_off :
  ∃ h', load_from_args example_env [("use_cuda", VBool true)] HParameters = (Ok (), h') ∧
        self h' !! "use_cuda" = Some (VBool false).
Proof. eexists. split; vm_compute; reflexivity. Qed.

(** ** The weights path and the test-mode precondition *)

(** Statements that do not depend on an attribute: the property follows
    the syntax of the statement, as the frame properties do. *)
Section ignores.
Context {A B : Type}.
Implicit Types (m : M A) (f : A → M B) (k : string).

Lemma ignores_ret k (a : A) : ignores k (mret a).
Proof. intros h1 h2 H12. by split. Qed.
Lemma ignores_raise k e : ignores k (@raise A e).
Proof. intros h1 h2 H12. by split. Qed.
Lemma ignores_lift k (o : outcome A) : ignores k (lift o).
Proof. intros h1 h2 H12. by split. Qed.
Lemma ignores_bind k m f :
  ignores k m → (∀ a, ignores k (f a)) → ignores k (m ≫= f).
Proof.
  intros Hm Hf h1 h2 H12. rewrite !bind_run.
  destruct (Hm h1 h2 H12) as [Hr Hh].
  destruct (m h1) as [[a1|e1] h1'], (m h2) as [[a2|e2] h2']; simpl in *;
    simplify_eq; [by apply Hf|done].
Qed.
End ignores.

Lemma ignores_getattr k k' : k' ≠ k → ignores k (getattr k').
Proof.
  intros Hne h1 h2 [Htr Hs]. unfold getattr. rewrite (Hs k' Hne).
  by destruct (self h2 !! k').
Qed.
Lemma ignores_setattr k k' v : ignores k (setattr k' v).
Proof.
  intros h1 h2 [Htr Hs]. split; [done|]. split; [done|]. intros k0 Hk0. simpl.
  destruct (decide (k' = k0)) as [->|Hne].
  - by rewrite !lookup_insert_eq.
  - rewrite !lookup_insert_ne by done. by apply Hs.
Qed.
Lemma ignores_emit k e : ignores k (emit e).
Proof.
  intros h1 h2 [Htr Hs]. split; [done|]. split; [|done]. simpl. by rewrite Htr.
Qed.
Lemma ignores_for_each {A} k (l : list A) body :
  (∀ x, ignores k (body x)) → ignores k (for_each l body).
Proof.
  intros Hbody. induction l as [|x l IH]; [apply ignores_ret|].
  by apply ignores_bind.
Qed.

Ltac ignores_step :=
  lazymatch goal with
  | |- ignores _ (_ ≫= _) => apply ignores_bind; [|intros ?]
  | |- ignores _ (mret _) => apply ignores_ret
  | |- ignores _ (ret _) => apply ignores_ret
  | |- ignores _ (raise _) => apply ignores_raise
  | |- ignores _ (lift _) => apply ignores_lift
  | |- ignores _ (getattr _) => apply ignores_getattr; done
  | |- ignores _ (setattr _ _) => apply ignores_setattr
  | |- ignores _ (emit _) => apply ignores_emit
  | |- ignores _ (for_each _ _) => apply ignores_for_each; intros ?
  | |- ignores _ (match ?x with _ => _ end) => destruct x
  end.
Ltac ignoring := repeat (ignores_step; cbv beta).

(** The statements of [_init] before line 105 do not depend on
    [weights_path]. *)
Lemma init_before_paths_ignores env : ignores "weights_path" (init_before_paths env).
Proof.
  unfold init_before_paths, init_log_path, init_use_cuda, init_splits,
    resolve_splits_file, setitem, get_dataset_by_name.
  ignoring.
Qed.

Lemma with_weights_path_agree w h :
  agree_except "weights_path" (with_weights_path w h) h.
Proof. split; [done|]. intros k Hk. simpl. by rewrite lookup_insert_ne. Qed.

(** Line 106 makes the two objects equal. *)
Lemma init_paths_agree h1 h2 :
  agree_except "weights_path" h1 h2 → init_paths h1 = init_paths h2.
Proof.
  intros [Htr Hs]. unfold init_paths. rewrite !(bind_run (setattr _ _)).
  cbn [setattr]. rewrite Htr. f_equal. f_equal. apply map_eq. intros k.
  destruct (decide ("weights_path" = k)) as [<-|Hne].
  - by rewrite !lookup_insert_eq.
  - rewrite !lookup_insert_ne by done. apply Hs. by intros ->.
Qed.

Lemma _init_split env h :
  _init env h =
    match init_before_paths env h with
    | (Ok _, h3) =>
        match init_paths h3 with
        | (Ok _, h4) => (init_mode;; init_logger) h4
        | (Raise e, h4) => (Raise e, h4)
        end
    | (Raise e, h3) => (Raise e, h3)
    end.
Proof.
  unfold _init, init_before_paths. rewrite !(bind_run (init_log_path env)).
  destruct (init_log_path env h) as [[[]|e] h1]; [|done].
  rewrite !(bind_run (init_use_cuda env)).
  destruct (init_use_cuda env h1) as [[[]|e] h2]; [|done].
  rewrite (bind_run (init_splits env)).
  destruct (init_splits env h2) as [[[]|e] h3]; [|done].
  rewrite (bind_run init_paths).
  destruct (init_paths h3) as [[[]|e] h4]; done.
Qed.

(** The run of [_init] does not depend on what [weights_path] held. *)
Lemma _init_ignores_weights_path env h1 h2 :
  agree_except "weights_path" h1 h2 →
  (_init env h1).1 = (_init env h2).1 ∧
  trace (_init env h1).2 = trace (_init env h2).2.
Proof.
  intros H12. rewrite !_init_split.
  destruct (init_before_paths_ignores env h1 h2 H12) as [Hr Hh].
  destruct (init_before_paths env h1) as [[[]|e1] h1'],
    (init_before_paths env h2) as [[[]|e2] h2']; simpl in *; simplify_eq.
  - by rewrite (init_paths_agree h1' h2' Hh).
  - split; [done|]. by destruct Hh.
Qed.

Lemma init_before_paths_preserves env k :
  k ∉ ["log_path"; "writer"; "use_cuda"; "dataset_name_of_file";
       "dataset_of_file"; "splits_of_file"] →
  preserves k (init_before_paths env).
Proof.
  rewrite !not_elem_of_cons. intros (? & ? & ? & ? & ? & ? & _).
  unfold init_before_paths.
  apply preserves_bind; [by apply init_log_path_preserves|intros _].
  apply preserves_bind; [by apply init_use_cuda_preserves|intros _].
  by apply init_splits_preserves.
Qed.

(** A completed prefix has named the run directory and iterated over
    [splits_files]. *)
Lemma init_before_paths_ok_inv env h h3 :
  init_before_paths env h = (Ok (), h3) →
  ∃ c v files,
    self h3 !! "log_path" = Some (VStr (run_dir env c)) ∧
    self h3 !! "splits_files" = Some v ∧ iter v = Ok files.
Proof.
  unfold init_before_paths. intros Hrun.
  apply bind_ok_inv in Hrun as ([] & h1 & Hrun1 & Hrun).
  apply bind_ok_inv in Hrun as ([] & h2 & Hrun2 & Hrun).
  apply init_log_path_inv in Hrun1 as [[? _]|(c & Hc & _ & ->)]; [done|].
  exists c.
  assert (self h3 !! "log_path" = Some (VStr (run_dir env c))) as HL.
  { rewrite (init_splits_frame _ _ _ _ "log_path" Hrun) by done.
    rewrite (init_use_cuda_frame _ _ _ _ "log_path" Hrun2) by done.
    lookup. }
  assert (self h3 !! "splits_files" = self h2 !! "splits_files") as Hsf.
  { by rewrite (init_splits_frame _ _ _ _ "splits_files" Hrun). }
  unfold init_splits in Hrun.
  do 3 (rewrite bind_run in Hrun; cbn [setattr self trace] in Hrun).
  apply bind_ok_inv in Hrun as (v & h2' & Hget & Hrun).
  apply getattr_inv in Hget as [-> [[? _]|(v' & [= <-] & Hv)]]; [done|].
  apply bind_ok_inv in Hrun as (files & h2'' & Hit & Hrun).
  unfold lift in Hit. injection Hit as Hit _.
  exists v, files. split_and!; [done| |done].
  rewrite Hsf. revert Hv. cbn [self]. by rewrite !lookup_insert_ne by done.
Qed.

Lemma init_paths_iter_ok h L v files :
  self h !! "log_path" = Some (VStr L) →
  self h !! "splits_files" = Some v → iter v = Ok files →
  ∃ h', init_paths h = (Ok (), h') ∧
    self h' !! "weights_path" = Some (VDict (artifact_paths L ".pth" files [])).
Proof.
  intros HL Hv Hit. unfold init_paths. do 2 run_pure. run_getattr.
  rewrite bind_run. unfold lift. rewrite Hit.
  lazymatch goal with
  | |- context [for_each files derive_paths ?h1] =>
      destruct (derive_paths_loop files h1 L _ _
                  ltac:(lookup) ltac:(lookup) ltac:(lookup))
        as (h' & Hrun & _ & Hw & _)
  end.
  exists h'. by rewrite Hrun.
Qed.

(** C9: in every run of [_init], whatever the mode and whatever value [w]
    the caller put in [weights_path], line 106 comes before the test-mode
    check.  The run ends as it does without the caller's value.  Either it
    stops before line 105, with [w] still in [weights_path]; or the
    statements before line 105 complete with [w] still there, the block
    "Destination for weights and predictions" replaces it by the dictionary
    of the derived destination paths, and only then the block that checks
    the precondition runs, on that dictionary: its assertion cannot fail,
    and [weights_path] holds a dictionary at the end.  Run from any object,
    the path-derivation block leaves a dictionary in [weights_path], never
    [None]. *)
Theorem weights_path_overwritten env h w :
  (_init env (with_weights_path w h)).1 = (_init env h).1 ∧
  trace (_init env (with_weights_path w h)).2 = trace (_init env h).2 ∧
  (∀ r h', _init env (with_weights_path w h) = (r, h') →
     (∃ e, r = Raise e ∧
           init_before_paths env (with_weights_path w h) = (Raise e, h') ∧
           self h' !! "weights_path" = Some w) ∨
     (∃ h3 h4 L v files,
        init_before_paths env (with_weights_path w h) = (Ok (), h3) ∧
        self h3 !! "weights_path" = Some w ∧
        self h3 !! "log_path" = Some (VStr L) ∧
        self h3 !! "splits_files" = Some v ∧ iter v = Ok files ∧
        init_paths h3 = (Ok (), h4) ∧
        self h4 !! "weights_path" = Some (VDict (artifact_paths L ".pth" files [])) ∧
        (∀ msg, (init_mode h4).1 ≠ Raise (AssertionError msg)) ∧
        (init_mode;; init_logger) h4 = (r, h') ∧
        is_dict_attr "weights_path" h')) ∧
  is_dict_attr "weights_path" (init_paths h).2.
Proof.
  split_and!.
  - apply _init_ignores_weights_path, with_weights_path_agree.
  - apply _init_ignores_weights_path, with_weights_path_agree.
  - intros r h'. rewrite _init_split.
    assert (∀ r3 h3, init_before_paths env (with_weights_path w h) = (r3, h3) →
                     self h3 !! "weights_path" = Some w) as Hkept.
    { intros r3 h3 Hrun3.
      rewrite (preserves_run "weights_path" _ _ _ _
                 (init_before_paths_preserves env "weights_path"
                    ltac:(rewrite !not_elem_of_cons; split_and!; try done;
                          apply not_elem_of_nil)) Hrun3).
      apply lookup_insert_eq. }
    destruct (init_before_paths env (with_weights_path w h)) as [[[]|e] h3] eqn:Hrun3.
    + destruct (init_before_paths_ok_inv env _ h3 Hrun3) as (c & v & files & HL & Hv & Hit).
      destruct (init_paths_iter_ok h3 _ v files HL Hv Hit) as (h4 & Hrun4 & Hw).
      rewrite Hrun4. intros Hrun. right.
      exists h3, h4, (run_dir env c), v, files.
      split_and!; try done.
      * by apply (Hkept (Ok ())).
      * intros msg. apply init_mode_no_assert. by eexists.
      * exists (artifact_paths (run_dir env c) ".pth" files []). rewrite <-Hw.
        apply bind_inv in Hrun as [(e & Hmode & _)|([] & h5 & Hmode & Hlog)].
        -- by apply (init_mode_frame _ _ _ _ Hmode).
        -- rewrite (preserves_run "weights_path" _ _ _ _
                      (init_logger_preserves "weights_path" ltac:(done)) Hlog).
           by apply (init_mode_frame _ _ _ _ Hmode).
    + intros [= <- <-]. left. exists e. split_and!; [done..|].
      by apply (Hkept (Raise e)).
  - apply init_paths_weights_path_dict.
Qed.

Lemma weights_path_overwritten_witness :
  (_init example_env
     (with_weights_path (VStr "weights")
        (Heap (<["test" := VBool true]> __init__) []))).1
    = (_init example_env (Heap (<["test" := VBool true]> __init__) [])).1 ∧
  (_init example_env
     (with_weights_path (VStr "weights")
        (Heap (<["test" := VBool true]> __init__) []))).1 = Raise TypeError ∧
  ∃ h3 h4,
    init_before_paths example_env
      (with_weights_path (VStr "weights")
         (Heap (<["test" := VBool true]> __init__) [])) = (Ok (), h3) ∧
    self h3 !! "weights_path" = Some (VStr "weights") ∧
    init_paths h3 = (Ok (), h4) ∧
    self h4 !! "weights_path"
      = Some (VDict [("splits/tvsum_splits.json",
                      VStr "logs/171_LogisticRegressionModel/tvsum_splits.json.pth");
                     ("splits/summe_splits.json",
                      VStr "logs/171_LogisticRegressionModel/summe_splits.json.pth")]).
Proof.
  destruct (weights_path_overwritten example_env
              (Heap (<["test" := VBool true]> __init__) []) (VStr "weights"))
    as (Hsame & _ & Hrun & _).
  split; [exact Hsame|]. split; [vm_compute; reflexivity|].
  destruct (Hrun (Raise TypeError)
              (_init example_env
                 (with_weights_path (VStr "weights")
                    (Heap (<["test" := VBool true]> __init__) []))).2)
    as [(e & _ & Hstop & _)|(h3 & h4 & L & v & files & H3 & Hw3 & HL & Hv & Hit & H4 & Hw4 & _)].
  - vm_compute. reflexivity.
  - exfalso. revert Hstop. vm_compute. discriminate.
  - exists h3, h4. split_and!; [exact H3|exact Hw3|exact H4|].
    rewrite Hw4. revert H3 HL Hv Hit. vm_compute.
    intros [= <-]. vm_compute. intros [= <-] [= <-] [= <-]. reflexivity.
Defined.

(** C2 (the code departs from it): the assertion "No weights path given"
    is checked after [weights_path] was overwritten, so it never fails; a
    resolution in test mode with no weights path opens the metrics writer
    and then stops at [os.path.join] with a [TypeError]. *)
Theorem test_mode_without_weights_path :
  (∀ h msg, (init_mode (init_paths h).2).1 ≠ Raise (AssertionError msg)) ∧
  self HParameters !! "weights_path" = Some VNone ∧
  (load_from_args example_env [("test", VBool true)] HParameters).1 = Raise TypeError ∧
  trace (load_from_args example_env [("test", VBool true)] HParameters).2
    = [SummaryWriter_open "logs/171_LogisticRegressionModel"].
Proof.
  split_and!.
  - intros h msg. apply init_mode_no_assert, init_paths_weights_path_dict.
  - reflexivity.
  - vm_compute. reflexivity.
  - vm_compute. reflexivity.
Qed.

(** C6 (the code departs from it): in test mode with a weights path
    configured, the join is applied to the dictionary that replaced the
    configured path and raises; no weights-lookup path is ever derived: a
    test-mode [_init] completes only when there is no splits file. *)
Theorem test_mode_weights_lookup :
  (load_from_args example_env
     [("test", VBool true); ("weights_path", VStr "weights")] HParameters).1
    = Raise TypeError ∧
  self (load_from_args example_env
          [("test", VBool true); ("weights_path", VStr "weights")] HParameters).2
    !! "weights_of_file" = Some (VDict []) ∧
  (∀ env h t h',
     self h !! "test" = Some t → truthy t = true →
     _init env h = (Ok (), h') →
     self h' !! "weights_of_file" = Some (VDict [])).
Proof.
  split_and!.
  - vm_compute. reflexivity.
  - vm_compute. reflexivity.
  - intros env h t h' Ht Htruthy Hrun.
    destruct (_init_ok_class _ _ _ Hrun) as [c Hc].
    destruct (_init_run env h c _ h' Hc Hrun) as (_ & _ & _ & _ & t' & Ht' & Hmode).
    simplify_eq. rewrite Htruthy in Hmode. by destruct Hmode.
Qed.

(** ** The run directory *)

Lemma join_logs b :
  os_path.join "logs" b = if Str.startswith "/" b then b else "logs/" +:+ b.
Proof. unfold os_path.join. by destruct (Str.startswith "/" b). Qed.

(** The run directory determines the second of the clock reading. *)
Lemma run_dir_inj env1 env2 c :
  run_dir env1 c = run_dir env2 c → int_timestamp env1 = int_timestamp env2.
Proof.
  unfold run_dir. rewrite !join_logs.
  set (t := "_" +:+ class_name c).
  assert (∀ z1 z2 : Z, pretty z1 +:+ t = pretty z2 +:+ t → z1 = z2) as Hinj.
  { intros z1 z2 Heq. apply append_inj_r in Heq. by apply (inj pretty). }
  destruct (Str.startswith "/" (pretty (int_timestamp env1) +:+ t)) eqn:H1,
           (Str.startswith "/" (pretty (int_timestamp env2) +:+ t)) eqn:H2.
  - apply Hinj.
  - apply startswith_spec in H1 as [post ->]. done.
  - apply startswith_spec in H2 as [post ->]. done.
  - intros Heq. apply Hinj. by apply (inj (String.app "logs/")) in Heq.
Qed.

(** C7 (amended): two resolutions with the same model class whose clock
    readings differ in their whole seconds name different log directories,
    whether they complete or not. *)
Theorem log_dirs_distinct env1 env2 h1 h2 c :
  self h1 !! "model_class" = Some (VClass c) →
  self h2 !! "model_class" = Some (VClass c) →
  int_timestamp env1 ≠ int_timestamp env2 →
  self (_init env1 h1).2 !! "log_path" = Some (VStr (run_dir env1 c)) ∧
  self (_init env2 h2).2 !! "log_path" = Some (VStr (run_dir env2 c)) ∧
  run_dir env1 c ≠ run_dir env2 c.
Proof.
  intros Hc1 Hc2 Hts.
  destruct (_init env1 h1) as [r1 h1'] eqn:Hrun1.
  destruct (_init env2 h2) as [r2 h2'] eqn:Hrun2.
  destruct (_init_run env1 h1 c r1 h1' Hc1 Hrun1) as [HL1 _].
  destruct (_init_run env2 h2 c r2 h2' Hc2 Hrun2) as [HL2 _].
  split_and!; [done..|]. intros Heq. by apply Hts, run_dir_inj with c.
Qed.

Lemma log_dirs_distinct_witness :
  self (_init example_env HParameters).2 !! "log_path"
    = Some (VStr (run_dir example_env LogisticRegressionModel)) ∧
  self (_init {| now_us := 172000000; cuda_is_available := false;
                 parse_splits_filename := example_parse |} HParameters).2 !! "log_path"
    = Some (VStr (run_dir {| now_us := 172000000; cuda_is_available := false;
                             parse_splits_filename := example_parse |}
                    LogisticRegressionModel)) ∧
  run_dir example_env LogisticRegressionModel
    ≠ run_dir {| now_us := 172000000; cuda_is_available := false;
                 parse_splits_filename := example_parse |} LogisticRegressionModel.
Proof.
  apply log_dirs_distinct.
  - vm_compute. reflexivity.
  - vm_compute. reflexivity.
  - vm_compute. discriminate.
Defined.

(** C7 as stated fails: two resolutions half a second apart, with the same
    model class, name the same log directory. *)
Lemma log_dirs_collide_within_a_second :
  now_us example_env ≠ now_us example_env_later ∧
  self (_init example_env HParameters).2 !! "log_path"
    = Some (VStr "logs/171_LogisticRegressionModel") ∧
  self (_init example_env_later HParameters).2 !! "log_path"
    = Some (VStr "logs/171_LogisticRegressionModel").
Proof. split_and!; [discriminate|vm_compute; reflexivity..]. Qed.

(** ** Failures and outside effects *)

Lemma silent_getattr_opt k : silent (getattr_opt k).
Proof. done. Qed.

Lemma merge_args_silent args : silent (merge_args args).
Proof.
  unfold merge_args. apply silent_for_each. intros key.
  unfold merge_arg, getitem.
  apply silent_bind; [by destruct (Dict.get args key)|intros val].
  destruct (is_none val); [done|].
  apply silent_bind; [apply silent_getattr_opt|intros cur].
  apply silent_bind; [|done].
  destruct cur as [[]|]; done.
Qed.

Lemma pick_model_silent args : silent (pick_model args).
Proof. unfold pick_model. destruct (Dict.get args "model"); [|done]. frames. Qed.

(** A failing [_init] has opened the metrics writer, unless [model_class]
    has no [__name__], and has done nothing else outside the object. *)
Lemma _init_raise_trace env h e h' :
  _init env h = (Raise e, h') →
  ((∀ c, self h !! "model_class" ≠ Some (VClass c)) ∧ trace h' = trace h) ∨
  (∃ c, self h !! "model_class" = Some (VClass c) ∧
        trace h' = trace h ++ [SummaryWriter_open (run_dir env c)]).
Proof.
  intros Hrun.
  destruct (self h !! "model_class") as [[| | | | | | |c| |]|] eqn:Hc;
    try (left; rewrite _init_no_class in Hrun by congruence;
         split; [congruence|by simplify_eq]).
  right. exists c. split; [done|].
  by destruct (_init_run env h c _ h' Hc Hrun) as (_ & _ & ?).
Qed.

(** The same for a whole resolution: the merge and the model choice have no
    outside effect. *)
Lemma load_from_args_raise_trace env args h e h' :
  load_from_args env args h = (Raise e, h') →
  trace h' = trace h ∨ ∃ L, trace h' = trace h ++ [SummaryWriter_open L].
Proof.
  unfold load_from_args. intros Hrun.
  apply bind_inv in Hrun as [(e1 & Hrun & _)|([] & h1 & Hrun1 & Hrun)].
  { left. apply (silent_run _ _ _ _ (merge_args_silent args) Hrun). }
  pose proof (silent_run _ _ _ _ (merge_args_silent args) Hrun1) as Htr1.
  apply bind_inv in Hrun as [(e1 & Hrun & _)|([] & h2 & Hrun2 & Hrun)].
  { left. rewrite <-Htr1. apply (silent_run _ _ _ _ (pick_model_silent args) Hrun). }
  pose proof (silent_run _ _ _ _ (pick_model_silent args) Hrun2) as Htr2.
  apply _init_raise_trace in Hrun as [[_ Htr]|(c & _ & Htr)].
  - left. congruence.
  - right. exists (run_dir env c). congruence.
Qed.

(** C8 (amended): when [_init] fails, the failure surfaces before
    [os.makedirs] is called and before any log handler is opened; the
    metrics writer, however, has been opened by then, unless the failure is
    that of [model_class.__name__], which comes first: every later failure
    (dataset lookup, test mode) finds the writer open on the run
    directory. *)
Theorem failure_precedes_bootstrap env h e h' :
  _init env h = (Raise e, h') →
  ∃ evs, trace h' = trace h ++ evs ∧
    (((∀ c, self h !! "model_class" ≠ Some (VClass c)) ∧ evs = []) ∨
     (∃ c, self h !! "model_class" = Some (VClass c) ∧
           evs = [SummaryWriter_open (run_dir env c)])) ∧
    (∀ p, makedirs p ∉ evs) ∧ (∀ hd, handler_open hd ∉ evs).
Proof.
  intros Hrun. apply _init_raise_trace in Hrun as [[Hc Htr]|(c & Hc & Htr)].
  - exists []. rewrite app_nil_r. split_and!; [done|by left|..];
      intros ? ?%elem_of_nil; done.
  - exists [SummaryWriter_open (run_dir env c)].
    split_and!; [done|right; by exists c|..];
      intros ? ?%list_elem_of_singleton; done.
Qed.

Lemma failure_precedes_bootstrap_witness :
  ∃ evs,
    trace (_init example_env (Heap (<["datasets" := VList ["nothing"] ]> __init__) [])).2
      = trace (Heap (<["datasets" := VList ["nothing"] ]> __init__) []) ++ evs ∧
    (((∀ c, self (Heap (<["datasets" := VList ["nothing"] ]> __init__) [])
              !! "model_class" ≠ Some (VClass c)) ∧ evs = []) ∨
     (∃ c, self (Heap (<["datasets" := VList ["nothing"] ]> __init__) [])
             !! "model_class" = Some (VClass c) ∧
           evs = [SummaryWriter_open (run_dir example_env c)])) ∧
    (∀ p, makedirs p ∉ evs) ∧ (∀ hd, handler_open hd ∉ evs).
Proof.
  apply (failure_precedes_bootstrap example_env
           (Heap (<["datasets" := VList ["nothing"] ]> __init__) []) AttributeError).
  vm_compute. reflexivity.
Defined.

(** C8 as stated fails: a dataset lookup that finds nothing stops the
    resolution after the metrics writer was opened on the run directory. *)
Lemma dataset_lookup_fails_after_writer :
  (load_from_args example_env [("datasets", VStr "nothing")] HParameters).1
    = Raise AttributeError ∧
  trace (load_from_args example_env [("datasets", VStr "nothing")] HParameters).2
    = [SummaryWriter_open "logs/171_LogisticRegressionModel"].
Proof. split; vm_compute; reflexivity. Qed.

(** ** Model selection *)

Lemma pick_model_str args s h :
  Dict.get args "model" = Some (VStr s) →
  pick_model args h =
    (Ok (), Heap (<["model_class" :=
                      VClass (default LogisticRegressionModel (model_table s))]> (self h))
              (trace h)).
Proof. intros Hget. unfold pick_model. by rewrite Hget. Qed.

Lemma pick_model_absent args h :
  Dict.get args "model" = None → pick_model args h = (Ok (), h).
Proof. intros Hget. unfold pick_model. by rewrite Hget. Qed.

(** C4 (amended): on a fresh configuration and arguments the merge accepts
    (their keys are attribute names, and list attributes are given texts or
    [None]), however the resolution ends, [model_class] holds the class the table
    gives the ["model"] argument when that is one of the five names, the
    baseline class when it is any other string, and the baseline class when
    there is no ["model"] argument and the arguments give ["model_class"] no
    non-null value. *)
Theorem model_class_resolved env args r h' :
  Dict.wf args → attribute_names args = true → splittable __init__ args = true →
  load_from_args env args HParameters = (r, h') →
  (∀ s, Dict.get args "model" = Some (VStr s) →
        self h' !! "model_class"
          = Some (VClass (default LogisticRegressionModel (model_table s)))) ∧
  (Dict.get args "model" = None →
   Dict.get args "model_class" = None ∨ Dict.get args "model_class" = Some VNone →
   self h' !! "model_class" = Some (VClass LogisticRegressionModel)) ∧
  model_table "baseline" = Some LogisticRegressionModel ∧
  model_table "vasnet" = Some VASNetModel ∧
  model_table "transformer" = Some TransformerModel ∧
  model_table "DSN" = Some DSNModel ∧
  model_table "sumgan" = Some SumGANModel ∧
  (∀ s, s ∉ ["baseline"; "vasnet"; "transformer"; "DSN"; "sumgan"] →
        model_table s = None).
Proof.
  intros Hwf _ Hsplit Hrun.
  destruct (merge_args_run __init__ args [] Hwf Hsplit) as (h1 & Hrun1 & _ & Hin & Hout).
  unfold load_from_args in Hrun. rewrite (bind_ok _ _ _ _ _ Hrun1) in Hrun.
  split_and!; try done.
  - intros s Hget. rewrite (bind_ok _ _ _ _ _ (pick_model_str args s h1 Hget)) in Hrun.
    lazymatch type of Hrun with
    | _init _ ?h2 = _ =>
        assert (self h2 !! "model_class"
                = Some (VClass (default LogisticRegressionModel (model_table s))))
          as Hc2 by lookup;
        by destruct (_init_run env h2 _ r h' Hc2 Hrun) as (_ & Hc & _)
    end.
  - intros Hget Hmc. rewrite (bind_ok _ _ _ _ _ (pick_model_absent args h1 Hget)) in Hrun.
    assert (self h1 !! "model_class" = Some (VClass LogisticRegressionModel)) as Hc1.
    { destruct Hmc as [Hmc|Hmc].
      - by rewrite (Hout _ Hmc).
      - by rewrite (Hin _ _ Hmc). }
    by destruct (_init_run env h1 LogisticRegressionModel r h' Hc1 Hrun) as (_ & Hc & _).
  - intros s Hs. rewrite !not_elem_of_cons in Hs.
    destruct Hs as (? & ? & ? & ? & ? & _). unfold model_table.
    destruct (String.eqb_spec s "baseline"); [done|].
    destruct (String.eqb_spec s "vasnet"); [done|].
    destruct (String.eqb_spec s "transformer"); [done|].
    destruct (String.eqb_spec s "DSN"); [done|].
    by destruct (String.eqb_spec s "sumgan").
Qed.

Lemma model_class_resolved_witness :
  (∀ s, Dict.get [("model", VStr "sumgan")] "model" = Some (VStr s) →
        self (load_from_args example_env [("model", VStr "sumgan")] HParameters).2
          !! "model_class"
          = Some (VClass (default LogisticRegressionModel (model_table s)))) ∧
  (Dict.get [("model", VStr "sumgan")] "model" = None →
   Dict.get [("model", VStr "sumgan")] "model_class" = None ∨
   Dict.get [("model", VStr "sumgan")] "model_class" = Some VNone →
   self (load_from_args example_env [("model", VStr "sumgan")] HParameters).2
     !! "model_class" = Some (VClass LogisticRegressionModel)) ∧
  model_table "baseline" = Some LogisticRegressionModel ∧
  model_table "vasnet" = Some VASNetModel ∧
  model_table "transformer" = Some TransformerModel ∧
  model_table "DSN" = Some DSNModel ∧
  model_table "sumgan" = Some SumGANModel ∧
  (∀ s, s ∉ ["baseline"; "vasnet"; "transformer"; "DSN"; "sumgan"] →
        model_table s = None).
Proof.
  apply (model_class_resolved example_env [("model", VStr "sumgan")]
           (load_from_args example_env [("model", VStr "sumgan")] HParameters).1).
  - unfold Dict.wf. apply (bool_decide_unpack _). vm_compute. exact I.
  - vm_compute. reflexivity.
  - reflexivity.
  - by destruct (load_from_args example_env [("model", VStr "sumgan")] HParameters).
Defined.

(** C4 as stated fails: with no ["model"] argument and a ["model_class"]
    argument, [model_class] holds the argument, not the baseline class;
    for a string the resolution then stops at [__name__]. *)
Lemma model_class_argument_overrides_baseline :
  Dict.get [("model_class", VStr "vasnet")] "model" = None ∧
  self (load_from_args example_env [("model_class", VStr "vasnet")] HParameters).2
    !! "model_class" = Some (VStr "vasnet") ∧
  Some (VStr "vasnet") ≠ Some (VClass LogisticRegressionModel) ∧
  (load_from_args example_env [("model_class", VStr "vasnet")] HParameters).1
    = Raise AttributeError.
Proof. split_and!; [reflexivity|vm_compute; reflexivity|discriminate|vm_compute; reflexivity]. Qed.

(** * Further properties *)

(** ** Attributes are only added or overwritten *)

Lemma get_dataset_by_name_heap n h : (get_dataset_by_name n h).2 = h.
Proof.
  unfold get_dataset_by_name. rewrite bind_run.
  pose proof (getattr_heap "datasets" h) as Hh.
  destruct (getattr "datasets" h) as [[v|e] h1]; simpl in Hh; subst h1; [|done].
  rewrite bind_run. unfold lift. by destruct (iter v).
Qed.

Section grows.
Context (P : gmap string value → Prop).
Hypothesis P_insert : ∀ s k v, P s → P (<[k := v]> s).

Lemma grows_setattr k v : maintains P (setattr k v).
Proof using P_insert. intros h HP. by apply P_insert. Qed.

Lemma grows_setitem k key v : maintains P (setitem k key v).
Proof using P_insert.
  unfold setitem. apply maintains_bind.
  - apply maintains_same. intros h. by rewrite getattr_heap.
  - intros [| | | | | |d| | |]; try (by apply maintains_same). apply grows_setattr.
Qed.
End grows.

(** A property of the store that assignments keep is kept by every
    statement of the class. *)
Ltac grows_step HP :=
  lazymatch goal with
  | |- maintains _ (_ ≫= _) => apply maintains_bind; [|intros ?]
  | |- maintains _ (for_each _ _) => apply maintains_for_each; intros ?
  | |- maintains _ (setattr _ _) => apply grows_setattr, HP
  | |- maintains _ (setitem _ _ _) => apply grows_setitem, HP
  | |- maintains _ (getattr _) =>
      apply maintains_same; intros ?; by rewrite getattr_heap
  | |- maintains _ (os_path_join _ _) =>
      apply maintains_same; intros ?; by rewrite os_path_join_heap
  | |- maintains _ (get_dataset_by_name _) =>
      apply maintains_same; intros ?; by rewrite get_dataset_by_name_heap
  | |- maintains _ (match ?x with _ => _ end) => destruct x
  | |- maintains _ _ => by apply maintains_same
  end.
Ltac grows HP := repeat (grows_step HP; cbv beta).

Section grows_class.
Context (P : gmap string value → Prop).
Hypothesis P_insert : ∀ s k v, P s → P (<[k := v]> s).

Lemma grows_merge_args args : maintains P (merge_args args).
Proof using P_insert. unfold merge_args, merge_arg, getitem. grows P_insert. Qed.

Lemma grows_pick_model args : maintains P (pick_model args).
Proof using P_insert. unfold pick_model. grows P_insert. Qed.

Lemma grows__init env : maintains P (_init env).
Proof using P_insert.
  unfold _init, init_log_path, init_use_cuda, init_splits, resolve_splits_file,
    init_paths, derive_paths, init_mode, weights_lookup, init_logger.
  grows P_insert.
Qed.

Lemma grows_load_from_args env args : maintains P (load_from_args env args).
Proof using P_insert.
  unfold load_from_args.
  apply maintains_bind; [apply grows_merge_args|intros _].
  apply maintains_bind; [apply grows_pick_model|intros _].
  apply grows__init.
Qed.
End grows_class.

Lemma is_Some_insert k (s : gmap string value) k' v :
  is_Some (s !! k) → is_Some (<[k' := v]> s !! k).
Proof.
  intros Hs. destruct (decide (k' = k)) as [->|Hne].
  - rewrite lookup_insert_eq. by eexists.
  - by rewrite lookup_insert_ne.
Qed.

(** X1: resolution never deletes an attribute: whatever the arguments, as
    long as their keys are attribute names, and however the run ends, every
    attribute the object had before [load_from_args] is still there after
    it. *)
Theorem load_from_args_keeps_attributes env args h k :
  attribute_names args = true →
  is_Some (self h !! k) → is_Some (self (load_from_args env args h).2 !! k).
Proof.
  intros _. apply (grows_load_from_args (λ s, is_Some (s !! k))).
  apply is_Some_insert.
Qed.

Lemma load_from_args_keeps_attributes_witness :
  is_Some (self (load_from_args example_env [("lr", VStr "0.1")] HParameters).2 !! "lr").
Proof.
  apply load_from_args_keeps_attributes; [vm_compute; reflexivity|].
  vm_compute. by eexists.
Defined.

(** ** What [_init] and the model choice leave alone *)

Lemma _init_preserves env k : k ∉ init_writes → preserves k (_init env).
Proof.
  unfold init_writes. rewrite !not_elem_of_cons.
  intros (? & ? & ? & ? & ? & ? & ? & ? & ? & ? & _). unfold _init.
  apply preserves_bind; [by apply init_log_path_preserves|intros _].
  apply preserves_bind; [by apply init_use_cuda_preserves|intros _].
  apply preserves_bind; [by apply init_splits_preserves|intros _].
  apply preserves_bind; [by apply init_paths_preserves|intros _].
  apply preserves_bind; [by apply init_mode_preserves|intros _].
  by apply init_logger_preserves.
Qed.

Lemma pick_model_preserves args k : k ≠ "model_class" → preserves k (pick_model args).
Proof. intros. unfold pick_model. destruct (Dict.get args "model"); frames. Qed.

Ltac not_written :=
  unfold init_writes; rewrite !not_elem_of_cons;
  split_and!; [done..|apply not_elem_of_nil].

(** After the merge has completed, the rest of [load_from_args] keeps every
    attribute that neither the model choice nor [_init] assigns. *)
Lemma load_from_args_after_merge env args h h1 r h' k :
  merge_args args h = (Ok (), h1) →
  load_from_args env args h = (r, h') →
  k ≠ "model_class" → k ∉ init_writes →
  self h' !! k = self h1 !! k.
Proof.
  intros Hmerge Hrun Hk Hk'. unfold load_from_args in Hrun.
  rewrite (bind_ok _ _ _ _ _ Hmerge) in Hrun.
  refine (preserves_run k _ _ _ _ _ Hrun).
  apply preserves_bind; [by apply pick_model_preserves|intros _].
  by apply _init_preserves.
Qed.

(** ** [get_full_hps_dict] *)

Lemma get_full_hps_dict_ok h v1 v2 v3 :
  self h !! "l2_req" = Some v1 → self h !! "lr" = Some v2 →
  self h !! "epochs_max" = Some v3 →
  get_full_hps_dict h
    = (Ok (VDict [("l2_req", v1); ("lr", v2); ("epochs_max", v3)]), h).
Proof.
  intros H1 H2 H3. unfold get_full_hps_dict, hps_vars, collect_vars.
  rewrite bind_run. do 3 run_getattr. reflexivity.
Qed.

Lemma hp_value_merged args k dflt v :
  is_list_attr (Some dflt) = false →
  Dict.get args k = Some v →
  merged (Some dflt) v = Some (hp_value args k dflt).
Proof.
  intros Hl Hget. unfold merged, hp_value. rewrite Hget, Hl.
  by destruct (is_none v).
Qed.

Lemma merged_hp_value args (store : gmap string value) h1 k dflt :
  store !! k = Some dflt → is_list_attr (Some dflt) = false →
  (∀ k v, Dict.get args k = Some v → self h1 !! k = merged (store !! k) v) →
  (∀ k, Dict.get args k = None → self h1 !! k = store !! k) →
  self h1 !! k = Some (hp_value args k dflt).
Proof.
  intros Hk Hl Hin Hout. destruct (Dict.get args k) as [v|] eqn:Hget.
  - rewrite (Hin k v Hget), Hk. by apply hp_value_merged.
  - rewrite (Hout k Hget), Hk. unfold hp_value. by rewrite Hget.
Qed.

(** X2: the hyperparameters given as arguments come back from
    [get_full_hps_dict] as they were given: after [load_from_args] on a fresh
    object, with arguments the merge accepts whose keys are attribute names,
    however the run ends, the dictionary holds exactly the keys
    [l2_req], [lr] and [epochs_max], in this order, each with the argument's
    raw value when the argument is there and not [None], and with the
    default otherwise. *)
Theorem hps_dict_after_load env args r h' :
  Dict.wf args → attribute_names args = true → splittable __init__ args = true →
  load_from_args env args HParameters = (r, h') →
  get_full_hps_dict h'
    = (Ok (VDict [("l2_req", hp_value args "l2_req" (VFloat 1 (-5)));
                  ("lr", hp_value args "lr" (VFloat 5 (-5)));
                  ("epochs_max", hp_value args "epochs_max" (VInt 300))]), h').
Proof.
  intros Hwf _ Hsplit Hrun.
  destruct (merge_args_run __init__ args [] Hwf Hsplit) as (h1 & Hrun1 & _ & Hin & Hout).
  apply get_full_hps_dict_ok.
  - rewrite (load_from_args_after_merge _ _ _ _ _ _ "l2_req" Hrun1 Hrun)
      by (done || not_written).
    by apply (merged_hp_value args __init__).
  - rewrite (load_from_args_after_merge _ _ _ _ _ _ "lr" Hrun1 Hrun)
      by (done || not_written).
    by apply (merged_hp_value args __init__).
  - rewrite (load_from_args_after_merge _ _ _ _ _ _ "epochs_max" Hrun1 Hrun)
      by (done || not_written).
    by apply (merged_hp_value args __init__).
Qed.

Lemma hps_dict_after_load_witness :
  get_full_hps_dict
    (load_from_args example_env [("lr", VStr "0.1"); ("epochs_max", VNone)] HParameters).2
    = (Ok (VDict [("l2_req", hp_value [("lr", VStr "0.1"); ("epochs_max", VNone)]
                               "l2_req" (VFloat 1 (-5)));
                  ("lr", hp_value [("lr", VStr "0.1"); ("epochs_max", VNone)]
                           "lr" (VFloat 5 (-5)));
                  ("epochs_max", hp_value [("lr", VStr "0.1"); ("epochs_max", VNone)]
                                   "epochs_max" (VInt 300))]),
       (load_from_args example_env [("lr", VStr "0.1"); ("epochs_max", VNone)]
          HParameters).2).
Proof.
  apply (hps_dict_after_load example_env [("lr", VStr "0.1"); ("epochs_max", VNone)]
           (load_from_args example_env [("lr", VStr "0.1"); ("epochs_max", VNone)]
              HParameters).1).
  - unfold Dict.wf. apply (bool_decide_unpack _). vm_compute. exact I.
  - vm_compute. reflexivity.
  - reflexivity.
  - by destruct (load_from_args example_env
                   [("lr", VStr "0.1"); ("epochs_max", VNone)] HParameters).
Defined.

(** ** [__str__] *)

Section report.
Variable str_of : value → string.

Lemma join_lines_cons line rest :
  rest ≠ [] → join_lines (line :: rest) = line +:+ newline +:+ join_lines rest.
Proof. by destruct rest. Qed.

(** The loop appends the lines to come, joined by line feeds, with no line
    feed after the last. *)
Lemma str_loop_ok vars : ∀ vals len i acc h,
  Forall2 (λ var val, self h !! var = Some val) vars vals →
  (i + List.length vars = len)%nat →
  str_loop str_of len i vars acc h
    = (Ok (acc +:+ join_lines (str_lines str_of i vars vals)), h).
Proof.
  induction vars as [|var vars IH]; intros vals len i acc h Hvals Hlen.
  { apply Forall2_nil_inv_l in Hvals as ->. simpl. by rewrite append_nil_r. }
  apply Forall2_cons_inv_l in Hvals as (val & vals' & Hval & Hvals & ->).
  cbn [str_loop str_lines]. run_getattr.
  rewrite (IH vals' len (S i)) by (done || (simpl in Hlen; lia)).
  do 2 f_equal. destruct vars as [|var' vars].
  - apply Forall2_nil_inv_l in Hvals as ->. cbn [List.length] in Hlen.
    assert ((i <? len - 1)%nat = false) as -> by (apply Nat.ltb_ge; lia).
    cbn [str_lines join_lines]. by rewrite !append_nil_r.
  - apply Forall2_cons_inv_l in Hvals as (val' & vals'' & _ & _ & ->).
    cbn [List.length] in Hlen.
    assert ((i <? len - 1)%nat = true) as -> by (apply Nat.ltb_lt; lia).
    cbn [str_lines].
    rewrite (join_lines_cons (str_line str_of i var val)) by done.
    by rewrite !append_assoc.
Qed.

(** It stops at the first attribute the object does not have. *)
Lemma str_loop_missing vars : ∀ len i acc h,
  (∃ var, var ∈ vars ∧ self h !! var = None) →
  str_loop str_of len i vars acc h = (Raise AttributeError, h).
Proof.
  induction vars as [|var vars IH]; intros len i acc h (x & Hx & Hnone).
  { by apply elem_of_nil in Hx. }
  cbn [str_loop]. destruct (self h !! var) as [val|] eqn:Hvar.
  - run_getattr. apply IH. exists x. split; [|done].
    apply elem_of_cons in Hx as [->|?]; [congruence|done].
  - rewrite bind_run. unfold getattr. by rewrite Hvar.
Qed.

Lemma attrs_present (vars : list string) h :
  (∀ var, var ∈ vars → is_Some (self h !! var)) →
  ∃ vals, Forall2 (λ var val, self h !! var = Some val) vars vals.
Proof.
  induction vars as [|var vars IH]; intros Hall; [by exists []|].
  destruct (Hall var) as [val Hval]; [by left|].
  destruct IH as [vals Hvals]; [intros x Hx; apply Hall; by right|].
  exists (val :: vals). by constructor.
Qed.

(** X3: [__str__] returns the nine lines ["[i] name: value"], in the order
    of its list and numbered from 0, joined by line feeds with none at the
    end, when the object has all nine attributes; it raises
    [AttributeError] as soon as one is missing; in both cases it leaves the
    object as it was. *)
Theorem str_report h :
  (∀ vals,
     Forall2 (λ var val, self h !! var = Some val) str_vars vals →
     __str__ str_of h = (Ok (join_lines (str_lines str_of 0 str_vars vals)), h)) ∧
  ((∃ var, var ∈ str_vars ∧ self h !! var = None) →
   __str__ str_of h = (Raise AttributeError, h)).
Proof.
  split.
  - intros vals Hvals. unfold __str__.
    by rewrite (str_loop_ok str_vars vals).
  - intros Hmissing. by apply str_loop_missing.
Qed.
End report.

Lemma load_from_args_ok_inv env args h h' :
  load_from_args env args h = (Ok (), h') →
  ∃ h1 h2, merge_args args h = (Ok (), h1) ∧ pick_model args h1 = (Ok (), h2) ∧
           _init env h2 = (Ok (), h').
Proof.
  unfold load_from_args. intros Hrun.
  apply bind_ok_inv in Hrun as ([] & h1 & Hrun1 & Hrun).
  apply bind_ok_inv in Hrun as ([] & h2 & Hrun2 & Hrun).
  by exists h1, h2.
Qed.

(** X4: the report can be printed after every completed resolution of a
    fresh object with arguments whose keys are attribute names, and not
    before: on the fresh object [__str__] raises
    [AttributeError], because [log_path] is first assigned by [_init]. *)
Theorem str_after_resolution str_of env args h' :
  attribute_names args = true →
  load_from_args env args HParameters = (Ok (), h') →
  (∃ vals, Forall2 (λ var val, self h' !! var = Some val) str_vars vals ∧
           __str__ str_of h'
             = (Ok (join_lines (str_lines str_of 0 str_vars vals)), h')) ∧
  __str__ str_of HParameters = (Raise AttributeError, HParameters).
Proof.
  intros _ Hrun. split.
  - destruct (attrs_present str_vars h') as [vals Hvals].
    { intros var Hvar.
      destruct (decide (var = "log_path")) as [->|Hne].
      - apply load_from_args_ok_inv in Hrun as (h1 & h2 & _ & _ & Hinit).
        destruct (_init_ok_class _ _ _ Hinit) as [c Hc].
        destruct (_init_run _ _ _ _ _ Hc Hinit) as [HL _]. by eexists.
      - assert (is_Some (self HParameters !! var)) as Hsome.
        { unfold str_vars in Hvar. rewrite !elem_of_cons in Hvar.
          destruct Hvar as [->|[->|[->|[->|[->|[->|[->|[->|[->|Hnil]]]]]]]]];
            first [by destruct Hne | by apply elem_of_nil in Hnil | by eexists]. }
        pose proof (grows_load_from_args (λ s, is_Some (s !! var))
                      (is_Some_insert var) env args HParameters Hsome) as Hkept.
        by rewrite Hrun in Hkept. }
    exists vals. split; [done|]. unfold __str__. by rewrite (str_loop_ok str_of str_vars vals).
  - apply str_loop_missing. exists "log_path". split; [|done].
    unfold str_vars. rewrite !elem_of_cons. tauto.
Qed.

Lemma str_after_resolution_witness :
  (∃ vals,
     Forall2 (λ var val,
                self (load_from_args example_env [] HParameters).2 !! var = Some val)
       str_vars vals ∧
     __str__ (λ _, "?") (load_from_args example_env [] HParameters).2
       = (Ok (join_lines (str_lines (λ _, "?") 0 str_vars vals)),
          (load_from_args example_env [] HParameters).2)) ∧
  __str__ (λ _, "?") HParameters = (Raise AttributeError, HParameters).
Proof.
  apply (str_after_resolution (λ _, "?") example_env []).
  - reflexivity.
  - vm_compute. reflexivity.
Defined.

(** ** The splits resolver *)

Lemma first_containing_cases name ds :
  first_containing name ds = VNone ∨
  ∃ d, d ∈ ds ∧ first_containing name ds = VList [d].
Proof.
  induction ds as [|d ds IH]; [by left|]. cbn [first_containing].
  destruct (Str.contains name d).
  - right. exists d. split; [by left|done].
  - destruct IH as [?|(d' & ? & ?)]; [by left|].
    right. exists d'. split; [by right|done].
Qed.

Lemma get_dataset_by_name_ok name ds h :
  self h !! "datasets" = Some (VList ds) →
  get_dataset_by_name name h = (Ok (first_containing name ds), h).
Proof. intros Hds. unfold get_dataset_by_name. by run_getattr. Qed.

Section resolver.
Variable env : Env.
Variable ds : list string.

(** One splits file that resolves gets its three entries. *)
Lemma resolve_splits_file_ok h f name splits d dn dof sof :
  self h !! "datasets" = Some (VList ds) →
  splits_maps h dn dof sof →
  resolves env ds f name splits d →
  ∃ h1, resolve_splits_file env f h = (Ok (), h1) ∧
    trace h1 = trace h ∧
    self h1 !! "datasets" = Some (VList ds) ∧
    splits_maps h1 (Dict.set dn f (VStr name)) (Dict.set dof f (VStr d))
      (Dict.set sof f splits).
Proof.
  intros Hds (Hdn & Hdof & Hsof) [Hparse Hfound]. unfold resolve_splits_file.
  rewrite bind_run. unfold lift at 1. rewrite Hparse. cbv beta iota.
  run_setitem.
  rewrite bind_run, (get_dataset_by_name_ok name ds) by lookup.
  rewrite bind_run, Hfound. cbn [lift pop last]. run_setitem.
  erewrite setitem_ok by lookup.
  eexists. split; [done|]. cbn [self trace].
  split_and!; [done|lookup|]. unfold splits_maps. split_and!; lookup.
Qed.

(** One that does not raises: the parser's exception, or the
    [AttributeError] of [None.pop()] after its name was recorded. *)
Lemma resolve_splits_file_raise h f dn dof sof :
  self h !! "datasets" = Some (VList ds) →
  splits_maps h dn dof sof →
  (∀ name splits d, ¬ resolves env ds f name splits d) →
  (∃ e, parse_splits_filename env f = Raise e ∧
        resolve_splits_file env f h = (Raise e, h)) ∨
  (∃ name splits,
      parse_splits_filename env f = Ok (name, splits) ∧
      first_containing name ds = VNone ∧
      resolve_splits_file env f h =
        (Raise AttributeError,
         Heap (<["dataset_name_of_file" := VDict (Dict.set dn f (VStr name))]> (self h))
           (trace h))).
Proof.
  intros Hds (Hdn & Hdof & Hsof) Hno. unfold resolve_splits_file.
  destruct (parse_splits_filename env f) as [[name splits]|e] eqn:Hparse.
  - right. exists name, splits.
    destruct (first_containing_cases name ds) as [Hnone|(d & _ & Hd)].
    2:{ by destruct (Hno name splits d). }
    split_and!; [done..|].
    rewrite bind_run. unfold lift at 1. cbv beta iota. run_setitem.
    rewrite bind_run, (get_dataset_by_name_ok name ds) by lookup.
    by rewrite bind_run, Hnone.
  - left. exists e. split; [done|]. by rewrite bind_run.
Qed.

Lemma resolve_loop_ok files : ∀ h dn dof sof,
  self h !! "datasets" = Some (VList ds) →
  splits_maps h dn dof sof →
  Forall (λ f, ∃ name splits d, resolves env ds f name splits d) files →
  ∃ h' dn' dof' sof',
    for_each files (resolve_splits_file env) h = (Ok (), h') ∧
    trace h' = trace h ∧
    splits_maps h' dn' dof' sof' ∧
    resolved_entries env ds files dn dof sof dn' dof' sof'.
Proof.
  induction files as [|f files IH]; intros h dn dof sof Hds Hmaps Hall.
  { exists h, dn, dof, sof. split_and!; [done..|].
    intros f. split; [by intros ?%elem_of_nil|done]. }
  apply Forall_cons in Hall as [(name & splits & d & Hres) Hall].
  destruct (resolve_splits_file_ok h f name splits d dn dof sof Hds Hmaps Hres)
    as (h1 & Hrun1 & Htr1 & Hds1 & Hmaps1).
  destruct (IH h1 _ _ _ Hds1 Hmaps1 Hall) as (h' & dn' & dof' & sof' & Hrun & Htr & Hmaps' & Hent).
  exists h', dn', dof', sof'. split_and!; [|congruence|done|].
  { cbn [for_each]. by rewrite (bind_ok _ _ _ _ _ Hrun1). }
  intros g. split.
  - intros Hg. destruct (decide (g ∈ files)) as [Hin|Hout].
    + by apply Hent.
    + apply elem_of_cons in Hg as [->|?]; [|done].
      destruct (Hent f) as [_ Hsame]. destruct (Hsame Hout) as (-> & -> & ->).
      exists name, splits, d. by rewrite !get_set_eq.
  - intros [Hne Hout]%not_elem_of_cons.
    destruct (Hent g) as [_ Hsame]. destruct (Hsame Hout) as (-> & -> & ->).
    by rewrite !get_set_ne.
Qed.

(** The loop stops at the first splits file that does not resolve. *)
Lemma resolve_loop_raise pre f post : ∀ h dn dof sof,
  self h !! "datasets" = Some (VList ds) →
  splits_maps h dn dof sof →
  Forall (λ f, ∃ name splits d, resolves env ds f name splits d) pre →
  (∀ name splits d, ¬ resolves env ds f name splits d) →
  ∃ e h', for_each (pre ++ f :: post) (resolve_splits_file env) h = (Raise e, h') ∧
    trace h' = trace h ∧
    (parse_splits_filename env f = Raise e ∨
     ∃ name splits, parse_splits_filename env f = Ok (name, splits) ∧
       first_containing name ds = VNone ∧ e = AttributeError ∧
       ∃ dn', self h' !! "dataset_name_of_file" = Some (VDict dn') ∧
              Dict.get dn' f = Some (VStr name)).
Proof.
  induction pre as [|g pre IH]; intros h dn dof sof Hds Hmaps Hall Hno.
  - cbn [app for_each].
    destruct (resolve_splits_file_raise h f dn dof sof Hds Hmaps Hno)
      as [(e & Hparse & Hrun)|(name & splits & Hparse & Hnone & Hrun)].
    + exists e, h. rewrite (bind_raise _ _ _ _ _ Hrun). by split_and!; [..|left].
    + eexists AttributeError, _. rewrite (bind_raise _ _ _ _ _ Hrun).
      split_and!; [done..|]. right. exists name, splits. split_and!; [done..|].
      eexists. split; [lookup|]. apply get_set_eq.
  - apply Forall_cons in Hall as [(name & splits & d & Hres) Hall].
    destruct (resolve_splits_file_ok h g name splits d dn dof sof Hds Hmaps Hres)
      as (h1 & Hrun1 & Htr1 & Hds1 & Hmaps1).
    destruct (IH h1 _ _ _ Hds1 Hmaps1 Hall Hno) as (e & h' & Hrun & Htr & Hwhy).
    exists e, h'. split_and!; [|congruence|done].
    cbn [app for_each]. by rewrite (bind_ok _ _ _ _ _ Hrun1).
Qed.
End resolver.

Section resolver_blocks.
Variable env : Env.

(** Each splits file resolves or does not. *)
Lemma resolves_or_not ds f :
  (∃ name splits d, resolves env ds f name splits d) ∨
  (∀ name splits d, ¬ resolves env ds f name splits d).
Proof.
  unfold resolves.
  destruct (parse_splits_filename env f) as [[name splits]|e] eqn:Hparse.
  - destruct (first_containing_cases name ds) as [Hnone|(d & _ & Hd)].
    + right. intros name' splits' d' [[= <- <-] Hd]. congruence.
    + left. by exists name, splits, d.
  - right. by intros name splits d [? _].
Qed.

(** Either all of them resolve, or there is a first one that does not. *)
Lemma all_resolve_or_first_not ds files :
  Forall (λ f, ∃ name splits d, resolves env ds f name splits d) files ∨
  ∃ pre f post, files = pre ++ f :: post ∧
    Forall (λ f, ∃ name splits d, resolves env ds f name splits d) pre ∧
    (∀ name splits d, ¬ resolves env ds f name splits d).
Proof.
  induction files as [|f files IH]; [by left|].
  destruct (resolves_or_not ds f) as [Hf|Hf].
  - destruct IH as [Hall|(pre & g & post & -> & Hpre & Hg)].
    + left. by constructor.
    + right. exists (f :: pre), g, post. split_and!; [done| |done]. by constructor.
  - right. exists [], f, files. by split_and!.
Qed.

Lemma init_splits_ok h ds files :
  self h !! "datasets" = Some (VList ds) →
  self h !! "splits_files" = Some (VList files) →
  Forall (λ f, ∃ name splits d, resolves env ds f name splits d) files →
  ∃ h' dn dof sof,
    init_splits env h = (Ok (), h') ∧ trace h' = trace h ∧
    splits_maps h' dn dof sof ∧
    resolved_entries env ds files [] [] [] dn dof sof.
Proof.
  intros Hds Hfiles Hall. unfold init_splits. do 3 run_pure. run_getattr.
  rewrite bind_run. cbn [lift iter].
  lazymatch goal with
  | |- context [for_each files (resolve_splits_file env) ?h1] =>
      destruct (resolve_loop_ok env ds files h1 [] [] [])
        as (h' & dn & dof & sof & Hrun & Htr & Hmaps & Hent);
        [lookup|unfold splits_maps; split_and!; lookup|done|]
  end.
  exists h', dn, dof, sof. by rewrite Hrun.
Qed.

Lemma init_splits_raise h ds pre f post :
  self h !! "datasets" = Some (VList ds) →
  self h !! "splits_files" = Some (VList (pre ++ f :: post)) →
  Forall (λ f, ∃ name splits d, resolves env ds f name splits d) pre →
  (∀ name splits d, ¬ resolves env ds f name splits d) →
  ∃ e h', init_splits env h = (Raise e, h') ∧
    (parse_splits_filename env f = Raise e ∨
     ∃ name splits, parse_splits_filename env f = Ok (name, splits) ∧
       first_containing name ds = VNone ∧ e = AttributeError ∧
       ∃ dn', self h' !! "dataset_name_of_file" = Some (VDict dn') ∧
              Dict.get dn' f = Some (VStr name)).
Proof.
  intros Hds Hfiles Hpre Hf. unfold init_splits. do 3 run_pure. run_getattr.
  rewrite bind_run. cbn [lift iter].
  lazymatch goal with
  | |- context [for_each _ (resolve_splits_file env) ?h1] =>
      destruct (resolve_loop_raise env ds pre f post h1 [] [] [])
        as (e & h' & Hrun & Htr & Hwhy);
        [lookup|unfold splits_maps; split_and!; lookup|done..|]
  end.
  exists e, h'. by rewrite Hrun.
Qed.

(** A completed [init_splits] has resolved every splits file. *)
Lemma init_splits_ok_inv h ds files h' :
  self h !! "datasets" = Some (VList ds) →
  self h !! "splits_files" = Some (VList files) →
  init_splits env h = (Ok (), h') →
  ∃ dn dof sof, splits_maps h' dn dof sof ∧
    resolved_entries env ds files [] [] [] dn dof sof.
Proof.
  intros Hds Hfiles Hrun.
  destruct (all_resolve_or_first_not ds files) as [Hall|(pre & f & post & -> & Hpre & Hf)].
  - destruct (init_splits_ok h ds files Hds Hfiles Hall)
      as (h1 & dn & dof & sof & Hrun1 & _ & Hmaps & Hent).
    rewrite Hrun in Hrun1. injection Hrun1 as <-. exists dn, dof, sof. by split.
  - destruct (init_splits_raise h ds pre f post Hds Hfiles Hpre Hf) as (e & h1 & Hrun1 & _).
    congruence.
Qed.

Lemma _init_ok_stages h h' :
  _init env h = (Ok (), h') →
  ∃ h1 h2 h3 h4 h5,
    init_log_path env h = (Ok (), h1) ∧ init_use_cuda env h1 = (Ok (), h2) ∧
    init_splits env h2 = (Ok (), h3) ∧ init_paths h3 = (Ok (), h4) ∧
    init_mode h4 = (Ok (), h5) ∧ init_logger h5 = (Ok (), h').
Proof.
  intros Hrun. apply _init_stages in Hrun.
  destruct Hrun as [(? & ? & _)|(h1 & ? & Hrun)]; [done|].
  destruct Hrun as [(? & ? & _)|(h2 & ? & Hrun)]; [done|].
  destruct Hrun as [(? & ? & _)|(h3 & ? & Hrun)]; [done|].
  destruct Hrun as [(? & ? & _)|(h4 & ? & Hrun)]; [done|].
  destruct Hrun as [(? & ? & _)|(h5 & ? & Hrun)]; [done|].
  by exists h1, h2, h3, h4, h5.
Qed.

Lemma init_log_path_frame h r h' k :
  init_log_path env h = (r, h') → k ≠ "log_path" → k ≠ "writer" →
  self h' !! k = self h !! k.
Proof.
  intros Hrun ??. by apply (preserves_run k _ _ _ _ (init_log_path_preserves env k
    ltac:(done) ltac:(done)) Hrun).
Qed.

Lemma init_logger_frame h r h' k :
  init_logger h = (r, h') → k ≠ "logger" → self h' !! k = self h !! k.
Proof.
  intros Hrun ?. by apply (preserves_run k _ _ _ _ (init_logger_preserves k
    ltac:(done)) Hrun).
Qed.

(** X5: after a completed [_init], each of the three maps of the resolver
    has exactly the configured splits files as keys, and binds every splits
    file to what the parser answered for it: its dataset name, the first
    configured dataset path that contains that name, and its split
    definitions. *)
Theorem splits_resolved h ds files h' :
  self h !! "datasets" = Some (VList ds) →
  self h !! "splits_files" = Some (VList files) →
  _init env h = (Ok (), h') →
  ∃ dn dof sof,
    self h' !! "dataset_name_of_file" = Some (VDict dn) ∧
    self h' !! "dataset_of_file" = Some (VDict dof) ∧
    self h' !! "splits_of_file" = Some (VDict sof) ∧
    ∀ f,
      (f ∈ files →
         ∃ name splits d,
           parse_splits_filename env f = Ok (name, splits) ∧
           first_containing name ds = VList [d] ∧
           Dict.get dn f = Some (VStr name) ∧
           Dict.get dof f = Some (VStr d) ∧
           Dict.get sof f = Some splits) ∧
      (f ∉ files →
         Dict.get dn f = None ∧ Dict.get dof f = None ∧ Dict.get sof f = None).
Proof.
  intros Hds Hfiles Hrun.
  apply _init_ok_stages in Hrun as (h1 & h2 & h3 & h4 & h5 & R1 & R2 & R3 & R4 & R5 & R6).
  assert (self h2 !! "datasets" = Some (VList ds)) as Hds2.
  { rewrite (init_use_cuda_frame _ _ _ _ _ R2), (init_log_path_frame _ _ _ _ R1); done. }
  assert (self h2 !! "splits_files" = Some (VList files)) as Hfiles2.
  { rewrite (init_use_cuda_frame _ _ _ _ _ R2), (init_log_path_frame _ _ _ _ R1); done. }
  destruct (init_splits_ok_inv h2 ds files h3 Hds2 Hfiles2 R3)
    as (dn & dof & sof & (Hdn & Hdof & Hsof) & Hent).
  exists dn, dof, sof.
  rewrite !(init_logger_frame _ _ _ _ R6), !(init_mode_frame _ _ _ _ R5),
    !(init_paths_frame _ _ _ _ R4) by done.
  split_and!; [done..|].
  intros f. destruct (Hent f) as [Hin Hout]. split.
  - intros Hf. destruct (Hin Hf) as (name & splits & d & [? ?] & ? & ? & ?).
    by exists name, splits, d.
  - intros Hf. by destruct (Hout Hf) as (-> & -> & ->).
Qed.
End resolver_blocks.

Lemma splits_resolved_witness :
  ∃ dn dof sof,
    self (_init example_env HParameters).2 !! "dataset_name_of_file" = Some (VDict dn) ∧
    self (_init example_env HParameters).2 !! "dataset_of_file" = Some (VDict dof) ∧
    self (_init example_env HParameters).2 !! "splits_of_file" = Some (VDict sof) ∧
    ∀ f,
      (f ∈ ["splits/tvsum_splits.json"; "splits/summe_splits.json"] →
         ∃ name splits d,
           parse_splits_filename example_env f = Ok (name, splits) ∧
           first_containing name
             ["datasets/summarizer_dataset_summe_google_pool5.h5";
              "datasets/summarizer_dataset_tvsum_google_pool5.h5"] = VList [d] ∧
           Dict.get dn f = Some (VStr name) ∧
           Dict.get dof f = Some (VStr d) ∧
           Dict.get sof f = Some splits) ∧
      (f ∉ ["splits/tvsum_splits.json"; "splits/summe_splits.json"] →
         Dict.get dn f = None ∧ Dict.get dof f = None ∧ Dict.get sof f = None).
Proof.
  apply (splits_resolved example_env HParameters); vm_compute; reflexivity.
Defined.

(** ** Failing and completing runs of [_init] *)

(** X6: a splits file whose dataset name occurs in no configured dataset
    path stops [_init] with the [AttributeError] of [None.pop()]: the
    metrics writer has been opened, the name of the file's dataset has been
    recorded, and the artifact paths have not been derived. *)
Theorem dataset_not_found_raises env h c v ds pre f post name splits :
  self h !! "model_class" = Some (VClass c) →
  self h !! "use_cuda" = Some v →
  self h !! "datasets" = Some (VList ds) →
  self h !! "splits_files" = Some (VList (pre ++ f :: post)) →
  Forall (λ g, ∃ n s d, resolves env ds g n s d) pre →
  parse_splits_filename env f = Ok (name, splits) →
  Forall (λ d, ¬ Str.substring_of name d) ds →
  ∃ h', _init env h = (Raise AttributeError, h') ∧
    trace h' = trace h ++ [SummaryWriter_open (run_dir env c)] ∧
    (∃ dn, self h' !! "dataset_name_of_file" = Some (VDict dn) ∧
           Dict.get dn f = Some (VStr name)) ∧
    self h' !! "weights_path" = self h !! "weights_path" ∧
    self h' !! "pred_path" = self h !! "pred_path".
Proof.
  intros Hc Hv Hds Hfiles Hpre Hparse Hnot.
  assert (first_containing name ds = VNone) as Hnone.
  { destruct (first_containing_spec name ds)
      as [(l1 & d & l2 & -> & _ & Hd & _)|[_ ?]]; [|done].
    apply Forall_app in Hnot as [_ Hnot]. apply Forall_cons in Hnot as [Hnd _].
    by destruct Hnd. }
  assert (∀ n s d, ¬ resolves env ds f n s d) as Hf.
  { intros n s d [Hp Hd]. rewrite Hparse in Hp. injection Hp as <- <-. congruence. }
  unfold _init.
  rewrite (bind_ok _ _ _ _ _ (init_log_path_ok env h c Hc)). cbv beta.
  erewrite bind_ok by (apply init_use_cuda_ok; lookup). cbv beta.
  lazymatch goal with
  | |- context [(init_splits env ≫= _) ?h2] =>
      destruct (init_splits_raise env h2 ds pre f post) as (e & h3 & R3 & Hwhy);
        [lookup|lookup|done|done|];
      rewrite (bind_raise _ _ _ _ _ R3);
      pose proof (silent_run _ _ _ _ (init_splits_silent env) R3) as Htr;
      pose proof (init_splits_frame _ _ _ _ "weights_path" R3
                    ltac:(done) ltac:(done) ltac:(done)) as Hw;
      pose proof (init_splits_frame _ _ _ _ "pred_path" R3
                    ltac:(done) ltac:(done) ltac:(done)) as Hp
  end.
  destruct Hwhy as [Hraise|(n & s & Hparse' & _ & -> & dn & Hdn & Hget)]; [congruence|].
  rewrite Hparse in Hparse'. injection Hparse' as <- <-.
  exists h3. split_and!; [done|done| |..].
  - by exists dn.
  - rewrite Hw. lookup.
  - rewrite Hp. lookup.
Qed.

Lemma dataset_not_found_raises_witness :
  ∃ h', _init example_env (Heap (<["datasets" := VList ["nothing"] ]> __init__) [])
          = (Raise AttributeError, h') ∧
    trace h' = trace (Heap (<["datasets" := VList ["nothing"] ]> __init__) [])
                 ++ [SummaryWriter_open (run_dir example_env LogisticRegressionModel)] ∧
    (∃ dn, self h' !! "dataset_name_of_file" = Some (VDict dn) ∧
           Dict.get dn "splits/tvsum_splits.json" = Some (VStr "tvsum")) ∧
    self h' !! "weights_path"
      = self (Heap (<["datasets" := VList ["nothing"] ]> __init__) []) !! "weights_path" ∧
    self h' !! "pred_path"
      = self (Heap (<["datasets" := VList ["nothing"] ]> __init__) []) !! "pred_path".
Proof.
  apply (dataset_not_found_raises example_env
           (Heap (<["datasets" := VList ["nothing"] ]> __init__) [])
           LogisticRegressionModel (VBool false) ["nothing"] []
           "splits/tvsum_splits.json" ["splits/summe_splits.json"] "tvsum" (VList [])).
  - vm_compute. reflexivity.
  - vm_compute. reflexivity.
  - vm_compute. reflexivity.
  - vm_compute. reflexivity.
  - constructor.
  - reflexivity.
  - repeat constructor. by apply contains_false.
Defined.

(** X7: the block "List of splits by filename" (lines 95 to 103) completes
    exactly when every configured splits file resolves: the parser answers
    for it, and some configured dataset path contains the name it answers.
    The object is one whose method [get_dataset_by_name] is not shadowed by
    an attribute of that name. *)
Theorem splits_block_completes env h ds files :
  self h !! "get_dataset_by_name" = None →
  self h !! "datasets" = Some (VList ds) →
  self h !! "splits_files" = Some (VList files) →
  (∃ h', init_splits env h = (Ok (), h')) ↔
  Forall (λ f, ∃ name splits d, resolves env ds f name splits d) files.
Proof.
  intros _ Hds Hfiles. split.
  - intros [h' Hrun].
    destruct (all_resolve_or_first_not env ds files)
      as [Hall|(pre & f & post & -> & Hpre & Hf)]; [done|].
    destruct (init_splits_raise env h ds pre f post Hds Hfiles Hpre Hf)
      as (e & h1 & Hrun1 & _).
    congruence.
  - intros Hall.
    destruct (init_splits_ok env h ds files Hds Hfiles Hall) as (h' & _ & _ & _ & Hrun & _).
    by exists h'.
Qed.

Lemma splits_block_completes_witness :
  (∃ h', init_splits example_env HParameters = (Ok (), h')) ↔
  Forall (λ f, ∃ name splits d,
            resolves example_env
              ["datasets/summarizer_dataset_summe_google_pool5.h5";
               "datasets/summarizer_dataset_tvsum_google_pool5.h5"] f name splits d)
    ["splits/tvsum_splits.json"; "splits/summe_splits.json"].
Proof.
  apply (splits_block_completes example_env HParameters); vm_compute; reflexivity.
Defined.

(** X8: a completed [_init] has done exactly this outside the object, in
    this order: opened the metrics writer on the run directory, created the
    run directory (in train mode only, and once), opened the stream handler
    and the file handler on [train.log] in the run directory, added both to
    the logger and set its level. *)
Theorem completed_run_effects env h h' :
  _init env h = (Ok (), h') →
  ∃ c t,
    self h !! "model_class" = Some (VClass c) ∧ self h !! "test" = Some t ∧
    trace h' = trace h ++
      SummaryWriter_open (run_dir env c)
      :: (if truthy t then [] else [makedirs (run_dir env c)])
      ++ [handler_open StreamHandler;
          handler_open (FileHandler (os_path.join (run_dir env c) "train.log"));
          addHandler StreamHandler;
          addHandler (FileHandler (os_path.join (run_dir env c) "train.log"));
          setLevel_INFO].
Proof.
  intros Hrun. destruct (_init_ok_class _ _ _ Hrun) as [c Hc].
  destruct (_init_run env h c _ h' Hc Hrun) as (_ & _ & _ & _ & t & Ht & Hmode).
  exists c, t. split_and!; [done..|].
  destruct (truthy t); [by destruct Hmode|done].
Qed.

Lemma completed_run_effects_witness :
  ∃ c t,
    self HParameters !! "model_class" = Some (VClass c) ∧
    self HParameters !! "test" = Some t ∧
    trace (_init example_env HParameters).2 = trace HParameters ++
      SummaryWriter_open (run_dir example_env c)
      :: (if truthy t then [] else [makedirs (run_dir example_env c)])
      ++ [handler_open StreamHandler;
          handler_open (FileHandler (os_path.join (run_dir example_env c) "train.log"));
          addHandler StreamHandler;
          addHandler (FileHandler (os_path.join (run_dir example_env c) "train.log"));
          setLevel_INFO].
Proof.
  apply (completed_run_effects example_env HParameters). vm_compute. reflexivity.
Defined.

(** [_init] reads [use_cuda]: a run that completes found it. *)
Lemma _init_ok_use_cuda env h h' :
  _init env h = (Ok (), h') → is_Some (self h !! "use_cuda").
Proof.
  intros Hrun.
  apply _init_ok_stages in Hrun as (h1 & h2 & _ & _ & _ & R1 & R2 & _).
  rewrite <-(init_log_path_frame _ _ _ _ _ R1) by done.
  unfold init_use_cuda in R2. rewrite bind_run in R2. unfold getattr in R2.
  by destruct (self h1 !! "use_cuda").
Qed.
(** X9: resolving the same object a second time does not return to the
    same state: whatever the first [_init] stored in [use_cuda] (the probe's
    answer, or true for ["yes"]), a second completed [_init] stores false;
    and the second run opens a second metrics writer and adds the two log
    handlers to the logger again. *)
Theorem second_resolution env1 env2 h h1 h2 :
  _init env1 h = (Ok (), h1) →
  _init env2 h1 = (Ok (), h2) →
  self h2 !! "use_cuda" = Some (VBool false) ∧
  ∃ c evs1 evs2,
    trace h1 = trace h ++ SummaryWriter_open (run_dir env1 c) :: evs1 ∧
    trace h2 = trace h1 ++ SummaryWriter_open (run_dir env2 c) :: evs2 ∧
    addHandler StreamHandler ∈ evs1 ∧ addHandler StreamHandler ∈ evs2.
Proof.
  intros Hrun1 Hrun2.
  destruct (_init_ok_class _ _ _ Hrun1) as [c Hc].
  destruct (_init_ok_use_cuda _ _ _ Hrun1) as [v Hv].
  destruct (_init_run env1 h c _ h1 Hc Hrun1) as (_ & Hc1 & _ & Hu1 & t1 & _ & Hm1).
  destruct (_init_run env2 h1 c _ h2 Hc1 Hrun2) as (_ & _ & _ & Hu2 & t2 & _ & Hm2).
  split; [by rewrite (Hu2 _ (Hu1 v Hv))|].
  exists c.
  exists ((if truthy t1 then [] else [makedirs (run_dir env1 c)])
          ++ logger_events (run_dir env1 c)),
         ((if truthy t2 then [] else [makedirs (run_dir env2 c)])
          ++ logger_events (run_dir env2 c)).
  split_and!.
  - destruct (truthy t1); [by destruct Hm1|done].
  - destruct (truthy t2); [by destruct Hm2|done].
  - apply elem_of_app. right. unfold logger_events. rewrite !elem_of_cons. tauto.
  - apply elem_of_app. right. unfold logger_events. rewrite !elem_of_cons. tauto.
Qed.

Lemma second_resolution_witness :
  self (_init example_env_later (_init example_env
          (Heap (<["use_cuda" := VStr "yes"]> __init__) [])).2).2 !! "use_cuda"
    = Some (VBool false) ∧
  ∃ c evs1 evs2,
    trace (_init example_env (Heap (<["use_cuda" := VStr "yes"]> __init__) [])).2
      = trace (Heap (<["use_cuda" := VStr "yes"]> __init__) [])
          ++ SummaryWriter_open (run_dir example_env c) :: evs1 ∧
    trace (_init example_env_later (_init example_env
             (Heap (<["use_cuda" := VStr "yes"]> __init__) [])).2).2
      = trace (_init example_env (Heap (<["use_cuda" := VStr "yes"]> __init__) [])).2
          ++ SummaryWriter_open (run_dir example_env_later c) :: evs2 ∧
    addHandler StreamHandler ∈ evs1 ∧ addHandler StreamHandler ∈ evs2.
Proof.
  apply (second_resolution example_env example_env_later
           (Heap (<["use_cuda" := VStr "yes"]> __init__) [])).
  - vm_compute. reflexivity.
  - vm_compute. reflexivity.
Defined.

(** ** More on the argument merge *)

Lemma get_elem_of (d : dict) k v :
  Dict.wf d → Dict.get d k = Some v ↔ (k, v) ∈ d.
Proof.
  unfold Dict.wf, Dict.keys. induction d as [|[k' v'] d IH]; intros Hnd.
  - simpl. split; [done|by intros ?%elem_of_nil].
  - rewrite fmap_cons in Hnd. apply NoDup_cons in Hnd as [Hk' Hnd]. simpl.
    rewrite elem_of_cons. destruct (String.eqb_spec k' k) as [->|Hne].
    + split; [intros [= ->]; by left|].
      intros [[= ->]|Hin]; [done|]. destruct Hk'.
      apply list_elem_of_fmap. by exists (k, v).
    + rewrite IH by done. split; [by right|]. intros [[= ? ?]|?]; [by subst|done].
Qed.

Lemma wf_perm (d d' : dict) : d ≡ₚ d' → Dict.wf d → Dict.wf d'.
Proof. unfold Dict.wf, Dict.keys. by intros ->. Qed.

(** A dict is determined by its items, not by their order. *)
Lemma get_perm (d d' : dict) k :
  Dict.wf d → d ≡ₚ d' → Dict.get d k = Dict.get d' k.
Proof.
  intros Hwf Hperm. pose proof (wf_perm _ _ Hperm Hwf) as Hwf'.
  destruct (Dict.get d k) as [v|] eqn:Hget.
  - symmetry. apply get_elem_of; [done|]. rewrite <-Hperm. by apply get_elem_of.
  - destruct (Dict.get d' k) as [v|] eqn:Hget'; [|done].
    apply get_elem_of in Hget'; [|done]. rewrite <-Hperm in Hget'.
    apply get_elem_of in Hget'; [|done]. congruence.
Qed.

Lemma splittable_perm store (d d' : dict) :
  d ≡ₚ d' → splittable store d = true → splittable store d' = true.
Proof.
  unfold splittable. intros Hperm. rewrite !forallb_forall.
  intros Hall x Hx. apply Hall. apply list_elem_of_In. rewrite Hperm.
  by apply list_elem_of_In.
Qed.

(** X10: the merge does not depend on the order of the arguments: for
    arguments the merge accepts, whose keys are attribute names, two
    mappings with the same items, in any order, leave the same object. *)
Theorem merge_args_order store tr args args' :
  Dict.wf args → attribute_names args = true →
  splittable store args = true → args ≡ₚ args' →
  ∃ h1, merge_args args (Heap store tr) = (Ok (), h1) ∧
        merge_args args' (Heap store tr) = (Ok (), h1).
Proof.
  intros Hwf _ Hsplit Hperm.
  destruct (merge_args_run store args tr Hwf Hsplit) as (h1 & Hrun1 & Htr1 & Hin1 & Hout1).
  destruct (merge_args_run store args' tr (wf_perm _ _ Hperm Hwf)
              (splittable_perm _ _ _ Hperm Hsplit)) as (h2 & Hrun2 & Htr2 & Hin2 & Hout2).
  exists h1. split; [done|]. rewrite Hrun2. f_equal.
  destruct h1 as [s1 t1], h2 as [s2 t2]. simpl in *. subst t1 t2. f_equal.
  apply map_eq. intros k. destruct (Dict.get args k) as [v|] eqn:Hget.
  - rewrite (Hin1 k v Hget). apply Hin2. by rewrite <-(get_perm args args').
  - rewrite (Hout1 k Hget). apply Hout2. by rewrite <-(get_perm args args').
Qed.

Lemma merge_args_order_witness :
  ∃ h1,
    merge_args [("lr", VStr "0.1"); ("datasets", VStr "a b")] (Heap __init__ [])
      = (Ok (), h1) ∧
    merge_args [("datasets", VStr "a b"); ("lr", VStr "0.1")] (Heap __init__ [])
      = (Ok (), h1).
Proof.
  apply merge_args_order.
  - unfold Dict.wf. apply (bool_decide_unpack _). vm_compute. exact I.
  - vm_compute. reflexivity.
  - reflexivity.
  - apply perm_swap.
Defined.

Lemma for_each_app {A} (l1 l2 : list A) body h :
  for_each (l1 ++ l2) body h = (for_each l1 body ≫= λ _, for_each l2 body) h.
Proof.
  revert h. induction l1 as [|x l1 IH]; intros h; [done|].
  cbn [app for_each]. rewrite !bind_run.
  destruct (body x h) as [[[]|e] h1]; [|done]. by rewrite IH, bind_run.
Qed.

Lemma for_each_ext {A} (l : list A) body body' h :
  (∀ x h, x ∈ l → body x h = body' x h) →
  for_each l body h = for_each l body' h.
Proof.
  revert h. induction l as [|x l IH]; intros h Hext; [done|].
  cbn [for_each]. rewrite !bind_run, Hext by (by left).
  destruct (body' x h) as [[[]|e] h1]; [|done].
  apply IH. intros y h0 Hy. apply Hext. by right.
Qed.

Lemma get_app_l (d d' : dict) k :
  k ∈ Dict.keys d → Dict.get (d ++ d') k = Dict.get d k.
Proof.
  unfold Dict.keys. induction d as [|[k' v'] d IH]; [by intros ?%elem_of_nil|].
  rewrite fmap_cons, elem_of_cons. simpl. intros Hk.
  destruct (String.eqb_spec k' k) as [->|Hne]; [done|].
  apply IH. by destruct Hk.
Qed.

Lemma get_app_r (d d' : dict) k :
  k ∉ Dict.keys d → Dict.get (d ++ d') k = Dict.get d' k.
Proof.
  unfold Dict.keys. induction d as [|[k' v'] d IH]; [done|].
  rewrite fmap_cons, not_elem_of_cons. simpl. intros [Hne Hk].
  destruct (String.eqb_spec k' k) as [->|_]; [done|]. by apply IH.
Qed.

(** X11: the merge is not transactional: when an argument (of a mapping
    whose keys are attribute names) gives a list attribute a value that has
    no [split] (neither a string nor [None]), the merge raises
    [AttributeError] at that key, and the object is left with the arguments
    before it merged and the others not. *)
Theorem merge_args_fails_midway store tr pre k v post :
  Dict.wf (pre ++ (k, v) :: post) →
  attribute_names (pre ++ (k, v) :: post) = true →
  splittable store pre = true →
  is_list_attr (store !! k) = true → str_or_none v = false →
  ∃ h1, merge_args pre (Heap store tr) = (Ok (), h1) ∧
        merge_args (pre ++ (k, v) :: post) (Heap store tr) = (Raise AttributeError, h1).
Proof.
  intros Hwf _ Hsplit Hlist Hv.
  assert (Dict.wf pre ∧ k ∉ Dict.keys pre) as [Hwfpre Hk].
  { unfold Dict.wf, Dict.keys in *. rewrite fmap_app, fmap_cons in Hwf.
    apply NoDup_app in Hwf as (Hpre & Hdisj & _). split; [done|].
    intros Hin. apply (Hdisj _ Hin). by left. }
  destruct (merge_args_run store pre tr Hwfpre Hsplit) as (h1 & Hrun1 & _ & _ & Hout).
  exists h1. split; [done|].
  unfold merge_args, Dict.keys in *. rewrite fmap_app, for_each_app, bind_run.
  rewrite (for_each_ext _ _ (merge_arg pre)), Hrun1.
  2:{ intros x h0 Hx. unfold merge_arg, getitem. by rewrite get_app_l. }
  rewrite fmap_cons. cbn [for_each fst]. rewrite bind_run.
  unfold merge_arg, getitem. rewrite get_app_r by done. simpl.
  rewrite String.eqb_refl. rewrite bind_run. cbn [ret].
  assert (is_none v = false) as -> by (by destruct v).
  rewrite bind_run. unfold getattr_opt.
  rewrite (Hout k) by (destruct (Dict.get pre k) eqn:Hget; [|done];
                       destruct Hk; apply get_keys; by eexists).
  destruct (store !! k) as [[]|]; try done.
  rewrite bind_run. by destruct v.
Qed.

Lemma merge_args_fails_midway_witness :
  ∃ h1,
    merge_args [("lr", VStr "0.1")] (Heap __init__ []) = (Ok (), h1) ∧
    merge_args ([("lr", VStr "0.1")] ++ ("datasets", VInt 3) :: [("root", VStr "r")])
      (Heap __init__ []) = (Raise AttributeError, h1).
Proof.
  apply merge_args_fails_midway.
  - unfold Dict.wf. apply (bool_decide_unpack _). vm_compute. exact I.
  - vm_compute. reflexivity.
  - reflexivity.
  - reflexivity.
  - reflexivity.
Defined.

(** ** A ["model"] argument that is not a string *)

(** X12: a ["model"] argument that is [None], or any other value than a
    string, a list or a dict, selects the baseline class, also when the
    arguments give ["model_class"] a value; a list or a dict cannot be looked
    up in the table and stops the resolution with [TypeError] before any
    outside effect. *)
Theorem model_argument_not_a_string env args v r h' :
  Dict.wf args → splittable __init__ args = true →
  Dict.get args "model" = Some v → (∀ s, v ≠ VStr s) →
  load_from_args env args HParameters = (r, h') →
  match v with
  | VList _ | VDict _ => r = Raise TypeError ∧ trace h' = []
  | _ => self h' !! "model_class" = Some (VClass LogisticRegressionModel)
  end.
Proof.
  intros Hwf Hsplit Hget Hv Hrun.
  destruct (merge_args_run __init__ args [] Hwf Hsplit) as (h1 & Hrun1 & Htr1 & _ & _).
  unfold load_from_args in Hrun. rewrite (bind_ok _ _ _ _ _ Hrun1) in Hrun.
  rewrite bind_run in Hrun. unfold pick_model in Hrun. rewrite Hget in Hrun.
  rewrite bind_run in Hrun. unfold lift in Hrun.
  assert (∀ h2, h2 = Heap (<["model_class" := VClass LogisticRegressionModel]> (self h1))
                        (trace h1) →
                _init env h2 = (r, h') →
                self h' !! "model_class" = Some (VClass LogisticRegressionModel)) as Hbase.
  { intros h2 -> Hinit.
    lazymatch type of Hinit with
    | _init _ ?h2 = _ =>
        assert (self h2 !! "model_class" = Some (VClass LogisticRegressionModel))
          as Hc2 by lookup;
        by destruct (_init_run env h2 _ r h' Hc2 Hinit) as (_ & ? & _)
    end. }
  destruct v as [| | | |s| | | | |]; cbn [table_get setattr] in Hrun;
    try (by eapply Hbase).
  - by destruct (Hv s).
  - injection Hrun as <- <-. done.
  - injection Hrun as <- <-. done.
Qed.

Lemma model_argument_not_a_string_witness :
  self (load_from_args example_env
          [("model", VNone); ("model_class", VClass SumGANModel)] HParameters).2
    !! "model_class" = Some (VClass LogisticRegressionModel).
Proof.
  apply (model_argument_not_a_string example_env
           [("model", VNone); ("model_class", VClass SumGANModel)] VNone
           (load_from_args example_env
              [("model", VNone); ("model_class", VClass SumGANModel)] HParameters).1).
  - unfold Dict.wf. apply (bool_decide_unpack _). vm_compute. exact I.
  - reflexivity.
  - reflexivity.
  - discriminate.
  - by destruct (load_from_args example_env
                   [("model", VNone); ("model_class", VClass SumGANModel)] HParameters).
Defined.

(** ** Artifact names *)

Lemma has_sep_app a b : has_sep (a +:+ b) = has_sep a || has_sep b.
Proof.
  induction a as [|c a IH]; [done|]. rewrite append_cons. simpl.
  rewrite IH. by destruct (Ascii.eqb c "/").
Qed.

Lemma no_sep_startswith x : has_sep x = false → Str.startswith "/" x = false.
Proof.
  destruct x as [|c x]; [done|]. cbn [has_sep Str.startswith].
  intros [Hc _]%orb_false_iff.
  destruct (Ascii.eqb_spec "/" c) as [<-|Hne]; [|done].
  by rewrite Ascii.eqb_refl in Hc.
Qed.

Lemma after_last_sep_no_sep p cur : has_sep p = false → os_path.after_last_sep p cur = cur.
Proof.
  revert cur. induction p as [|c p IH]; intros cur; [done|].
  simpl. intros [Hc Hp]%orb_false_iff. rewrite Hc. by apply IH.
Qed.

Lemma after_last_sep_cases p : ∀ cur,
  has_sep (os_path.after_last_sep p cur) = false ∨
  (has_sep p = false ∧ os_path.after_last_sep p cur = cur).
Proof.
  induction p as [|c p IH]; intros cur; [by right|].
  simpl. destruct (Ascii.eqb c "/") eqn:Hc; simpl.
  - left. by destruct (IH p) as [?|[Hp ->]].
  - apply IH.
Qed.

(** [basename] holds no separator. *)
Lemma basename_no_sep p : has_sep (os_path.basename p) = false.
Proof.
  unfold os_path.basename. by destruct (after_last_sep_cases p p) as [?|[? ->]].
Qed.

Lemma after_last_sep_app a b cur :
  os_path.after_last_sep (a +:+ String "/" b) cur = os_path.after_last_sep b b.
Proof.
  revert cur. induction a as [|c a IH]; intros cur; [done|].
  rewrite append_cons. simpl. destruct (Ascii.eqb c "/"); apply IH.
Qed.

Lemma ends_with_sep_inv a : Str.ends_with_sep a = true → ∃ a', a = a' +:+ "/".
Proof.
  induction a as [|c a IH]; [done|]. destruct a as [|c' a].
  - simpl. intros ->%Ascii.eqb_eq. by exists "".
  - intros Ha. destruct (IH Ha) as [a' Ha']. exists (String c a').
    by rewrite append_cons, <-Ha'.
Qed.

(** The last component of a join with a separator-free name is the name. *)
Lemma basename_join a x :
  has_sep x = false → os_path.basename (os_path.join a x) = x.
Proof.
  intros Hx. unfold os_path.join, os_path.basename.
  rewrite (no_sep_startswith x Hx).
  destruct (String.eqb_spec a "") as [->|Ha]; simpl.
  { rewrite append_nil_l. by apply after_last_sep_no_sep. }
  destruct (Str.ends_with_sep a) eqn:Hsep.
  - apply ends_with_sep_inv in Hsep as [a' ->].
    rewrite append_assoc.
    change ("/" +:+ x) with (String "/" x).
    rewrite after_last_sep_app. by apply after_last_sep_no_sep.
  - change ("/" +:+ x) with (String "/" x).
    rewrite after_last_sep_app. by apply after_last_sep_no_sep.
Qed.

(** X13: the artifacts of a splits file are named after its basename only:
    the last component of its weights path is the basename followed by
    [.pth], that of its predictions path the basename followed by
    [_preds.h5]; so two configured splits files get the same weights path
    exactly when they have the same basename, whatever their directories. *)
Theorem artifacts_named_by_basename h L files :
  self h !! "log_path" = Some (VStr L) →
  self h !! "splits_files" = Some (VList files) →
  ∃ h' dw dp,
    init_paths h = (Ok (), h') ∧
    self h' !! "weights_path" = Some (VDict dw) ∧
    self h' !! "pred_path" = Some (VDict dp) ∧
    (∀ s, s ∈ files →
       ∃ w p, Dict.get dw s = Some (VStr w) ∧ Dict.get dp s = Some (VStr p) ∧
              os_path.basename w = os_path.basename s +:+ ".pth" ∧
              os_path.basename p = os_path.basename s +:+ "_preds.h5") ∧
    (∀ s1 s2, s1 ∈ files → s2 ∈ files →
       (Dict.get dw s1 = Dict.get dw s2 ↔ os_path.basename s1 = os_path.basename s2)).
Proof.
  intros HL Hfiles.
  destruct (init_paths_ok h L files HL Hfiles) as (h' & Hrun & _ & Hw & Hp).
  eexists h', _, _. split_and!; [done..| |].
  - intros s Hs. eexists _, _. rewrite !artifact_paths_in by done.
    split_and!; [done..| |].
    + apply basename_join. rewrite has_sep_app, basename_no_sep. reflexivity.
    + apply basename_join. rewrite has_sep_app, basename_no_sep. reflexivity.
  - intros s1 s2 Hs1 Hs2. rewrite !artifact_paths_in by done. split.
    + intros [= Heq]. apply (f_equal os_path.basename) in Heq.
      rewrite !basename_join in Heq
        by (rewrite has_sep_app, basename_no_sep; reflexivity).
      by apply append_inj_r in Heq.
    + by intros ->.
Qed.

Lemma artifacts_named_by_basename_witness :
  ∃ h' dw dp,
    init_paths (Heap (<["log_path" := VStr "logs/171_sumgan"]>
                        (<["splits_files" := VList ["a/x.json"; "b/x.json"] ]>
                           __init__)) []) = (Ok (), h') ∧
    self h' !! "weights_path" = Some (VDict dw) ∧
    self h' !! "pred_path" = Some (VDict dp) ∧
    (∀ s, s ∈ ["a/x.json"; "b/x.json"] →
       ∃ w p, Dict.get dw s = Some (VStr w) ∧ Dict.get dp s = Some (VStr p) ∧
              os_path.basename w = os_path.basename s +:+ ".pth" ∧
              os_path.basename p = os_path.basename s +:+ "_preds.h5") ∧
    (∀ s1 s2, s1 ∈ ["a/x.json"; "b/x.json"] → s2 ∈ ["a/x.json"; "b/x.json"] →
       (Dict.get dw s1 = Dict.get dw s2 ↔ os_path.basename s1 = os_path.basename s2)).
Proof.
  apply (artifacts_named_by_basename _ "logs/171_sumgan").
  - vm_compute. reflexivity.
  - vm_compute. reflexivity.
Defined.

(** ** No splits file, and test mode *)

(** X14: with no splits file, [_init] completes in either mode, without
    asking the parser and without reading [datasets]: the five per-file maps
    are empty, and in test mode so is [weights_of_file]. *)
Theorem no_splits_file_completes env h c v t :
  self h !! "model_class" = Some (VClass c) →
  self h !! "use_cuda" = Some v →
  self h !! "test" = Some t →
  self h !! "splits_files" = Some (VList []) →
  ∃ h', _init env h = (Ok (), h') ∧
    self h' !! "dataset_name_of_file" = Some (VDict []) ∧
    self h' !! "dataset_of_file" = Some (VDict []) ∧
    self h' !! "splits_of_file" = Some (VDict []) ∧
    self h' !! "weights_path" = Some (VDict []) ∧
    self h' !! "pred_path" = Some (VDict []) ∧
    (truthy t = true → self h' !! "weights_of_file" = Some (VDict [])).
Proof.
  intros Hc Hv Ht Hfiles. unfold _init.
  rewrite (bind_ok _ _ _ _ _ (init_log_path_ok env h c Hc)). cbv beta.
  erewrite bind_ok by (apply init_use_cuda_ok; lookup). cbv beta.
  rewrite bind_run. unfold init_splits at 1. do 3 run_pure. run_getattr.
  rewrite bind_run. cbn [lift iter for_each ret].
  rewrite bind_run. unfold init_paths at 1. do 2 run_pure. run_getattr.
  rewrite bind_run. cbn [lift iter for_each ret].
  rewrite bind_run.
  destruct (truthy t) eqn:Htruthy.
  - erewrite (init_mode_test _ t []) by (done || lookup).
    cbn [self]. rewrite !lookup_insert_ne by done. rewrite Hfiles. cbn [iter].
    erewrite init_logger_ok by lookup.
    eexists. split; [done|]. cbn [self]. split_and!; lookup.
  - erewrite (init_mode_train _ t) by (done || lookup).
    cbn [self]. rewrite lookup_insert_ne, lookup_insert_ne, lookup_insert_ne,
      lookup_insert_ne, lookup_insert_ne, lookup_insert_ne, lookup_insert_ne,
      lookup_insert_eq by done.
    erewrite init_logger_ok by lookup.
    eexists. split; [done|]. cbn [self]. split_and!; first [lookup|done].
Qed.

Lemma no_splits_file_completes_witness :
  ∃ h', _init example_env
          (Heap (<["test" := VBool true]> (<["splits_files" := VList []]> __init__)) [])
        = (Ok (), h') ∧
    self h' !! "dataset_name_of_file" = Some (VDict []) ∧
    self h' !! "dataset_of_file" = Some (VDict []) ∧
    self h' !! "splits_of_file" = Some (VDict []) ∧
    self h' !! "weights_path" = Some (VDict []) ∧
    self h' !! "pred_path" = Some (VDict []) ∧
    (truthy (VBool true) = true → self h' !! "weights_of_file" = Some (VDict [])).
Proof.
  apply (no_splits_file_completes example_env _ LogisticRegressionModel (VBool false));
    vm_compute; reflexivity.
Defined.

(** X15: a configuration that completes in train mode fails in test mode as
    soon as it has a splits file: with a true [test] (any non-empty string
    is true, ["False"] included) [_init] resolves the splits files, derives
    the artifact paths, and stops at the join of the weights lookup with
    [TypeError]; the metrics writer is open and nothing else was done
    outside the object. *)
Theorem test_mode_raises env h c v t ds f files :
  self h !! "model_class" = Some (VClass c) →
  self h !! "use_cuda" = Some v →
  self h !! "test" = Some t → truthy t = true →
  self h !! "datasets" = Some (VList ds) →
  self h !! "splits_files" = Some (VList (f :: files)) →
  Forall (λ f, ∃ name splits d, resolves env ds f name splits d) (f :: files) →
  ∃ h', _init env h = (Raise TypeError, h') ∧
    trace h' = trace h ++ [SummaryWriter_open (run_dir env c)] ∧
    self h' !! "weights_of_file" = Some (VDict []).
Proof.
  intros Hc Hv Ht Htruthy Hds Hfiles Hall.
  destruct (_init env h) as [r h'] eqn:Hrun. exists h'.
  assert (r = Raise TypeError ∧ self h' !! "weights_of_file" = Some (VDict [])) as [-> Hwof].
  { revert Hrun. unfold _init.
    rewrite (bind_ok _ _ _ _ _ (init_log_path_ok env h c Hc)). cbv beta.
    erewrite bind_ok by (apply init_use_cuda_ok; lookup). cbv beta.
    lazymatch goal with
    | |- context [(init_splits env ≫= _) ?h2] =>
        destruct (init_splits_ok env h2 ds (f :: files))
          as (h3 & dn & dof & sof & R3 & _);
          [lookup|lookup|done|];
        rewrite (bind_ok _ _ _ _ _ R3); cbv beta;
        pose proof (init_splits_frame _ _ _ _ "log_path" R3
                      ltac:(done) ltac:(done) ltac:(done)) as HL3;
        pose proof (init_splits_frame _ _ _ _ "splits_files" R3
                      ltac:(done) ltac:(done) ltac:(done)) as Hf3;
        pose proof (init_splits_frame _ _ _ _ "test" R3
                      ltac:(done) ltac:(done) ltac:(done)) as Ht3
    end.
    cbn [self] in HL3, Hf3, Ht3.
    rewrite lookup_insert_ne, lookup_insert_ne, lookup_insert_eq in HL3 by done.
    rewrite !lookup_insert_ne in Hf3, Ht3 by done.
    rewrite Hfiles in Hf3. rewrite Ht in Ht3.
    destruct (init_paths_ok h3 _ (f :: files) HL3 Hf3) as (h4 & R4 & _ & Hw4 & _).
    rewrite (bind_ok _ _ _ _ _ R4). cbv beta.
    pose proof (init_paths_frame _ _ _ "splits_files" R4 ltac:(done) ltac:(done)) as Hf4.
    pose proof (init_paths_frame _ _ _ "test" R4 ltac:(done) ltac:(done)) as Ht4.
    rewrite Hf3 in Hf4. rewrite Ht3 in Ht4.
    rewrite bind_run, (init_mode_test h4 t _ Ht4 Htruthy Hw4), Hf4. cbn [iter].
    intros [= <- <-]. split; [done|]. lookup. }
  split; [done|]. split; [|done].
  by destruct (_init_run env h c _ h' Hc Hrun) as (_ & _ & ?).
Qed.

Lemma test_mode_raises_witness :
  ∃ h', _init example_env (Heap (<["test" := VStr "False"]> __init__) [])
          = (Raise TypeError, h') ∧
    trace h' = trace (Heap (<["test" := VStr "False"]> __init__) [])
                 ++ [SummaryWriter_open (run_dir example_env LogisticRegressionModel)] ∧
    self h' !! "weights_of_file" = Some (VDict []).
Proof.
  apply (test_mode_raises example_env (Heap (<["test" := VStr "False"]> __init__) [])
           LogisticRegressionModel (VBool false) (VStr "False")
           ["datasets/summarizer_dataset_summe_google_pool5.h5";
            "datasets/summarizer_dataset_tvsum_google_pool5.h5"]
           "splits/tvsum_splits.json" ["splits/summe_splits.json"]);
    try (vm_compute; reflexivity).
  repeat constructor.
  - by exists "tvsum", (VList []), "datasets/summarizer_dataset_tvsum_google_pool5.h5".
  - by exists "summe", (VList []), "datasets/summarizer_dataset_summe_google_pool5.h5".
Defined.

(** ** A sequence argument of white space *)

Lemma split_go_all_space s : all_space s = true → Str.split_go None s = [].
Proof.
  induction s as [|c s IH]; [done|]. cbn [all_space Str.split_go].
  intros [Hc Hs]%andb_true_iff. rewrite Hc. simpl. by apply IH.
Qed.

(** X16: a sequence argument that is empty or holds only white space
    empties the attribute: the merge stores the empty list. *)
Theorem blank_sequence_argument store tr k s :
  is_list_attr (store !! k) = true → all_space s = true →
  ∃ h1, merge_args [(k, VStr s)] (Heap store tr) = (Ok (), h1) ∧
        self h1 !! k = Some (VList []).
Proof.
  intros Hlist Hs.
  destruct (merge_args_run store [(k, VStr s)] tr) as (h1 & Hrun & _ & Hin & _).
  { unfold Dict.wf. simpl. apply NoDup_singleton. }
  { unfold splittable. simpl. by rewrite Hlist. }
  exists h1. split; [done|].
  rewrite (Hin k (VStr s)) by (simpl; by rewrite String.eqb_refl).
  unfold merged. cbn [is_none]. rewrite Hlist.
  unfold Str.split. by rewrite split_go_all_space.
Qed.

Lemma blank_sequence_argument_witness :
  ∃ h1, merge_args [("splits_files", VStr "  ")] (Heap __init__ []) = (Ok (), h1) ∧
        self h1 !! "splits_files" = Some (VList []).
Proof. apply blank_sequence_argument; reflexivity. Defined.

(** ** The name of the run directory *)

Lemma pretty_N_char_not_sep x s : Str.startswith "/" (String (pretty_N_char x) s) = false.
Proof. unfold pretty_N_char. by repeat case_match. Qed.

Lemma pretty_N_go_not_sep x : ∀ s,
  Str.startswith "/" s = false → Str.startswith "/" (pretty_N_go x s) = false.
Proof.
  induction (N.lt_wf_0 x) as [x _ IH]. intros s Hs.
  destruct (decide (x = 0)%N) as [->|Hx]; [by rewrite pretty_N_go_0|].
  rewrite pretty_N_go_step by lia.
  apply IH; [apply N.div_lt; lia|apply pretty_N_char_not_sep].
Qed.

Lemma pretty_N_go_app x : ∀ acc s,
  pretty_N_go x acc +:+ s = pretty_N_go x (acc +:+ s).
Proof.
  induction (N.lt_wf_0 x) as [x _ IH]. intros acc s.
  destruct (decide (x = 0)%N) as [->|Hx]; [by rewrite !pretty_N_go_0|].
  rewrite (pretty_N_go_step x acc), (pretty_N_go_step x (acc +:+ s)) by lia.
  rewrite IH by (apply N.div_lt; lia). reflexivity.
Qed.

(** The decimal text of an integer does not start with a separator. *)
Lemma pretty_Z_not_sep (z : Z) s : Str.startswith "/" (pretty z +:+ s) = false.
Proof.
  destruct z as [|p|p]; [done| |done].
  change (pretty (Z.pos p)) with (pretty (N.pos p)).
  unfold pretty, pretty_N. rewrite decide_False by done.
  rewrite pretty_N_go_app, pretty_N_go_step by lia.
  apply pretty_N_go_not_sep, pretty_N_char_not_sep.
Qed.

Lemma run_dir_eq env c :
  run_dir env c = "logs/" +:+ pretty (int_timestamp env) +:+ "_" +:+ class_name c.
Proof. unfold run_dir. by rewrite join_logs, pretty_Z_not_sep. Qed.

(** X17: after a completed resolution the run directory is
    [logs/<seconds>_<name>], where [<seconds>] is the decimal text of the
    clock reading in whole seconds and [<name>] the name of the resolved
    model class ([SumGANModel] for ["sumgan"]); a [log_path] argument is
    overwritten. *)
Theorem run_directory_format env args h' :
  load_from_args env args HParameters = (Ok (), h') →
  ∃ c, self h' !! "model_class" = Some (VClass c) ∧
       self h' !! "log_path"
         = Some (VStr ("logs/" +:+ pretty (int_timestamp env) +:+ "_" +:+ class_name c)).
Proof.
  intros (h1 & h2 & _ & _ & Hinit)%load_from_args_ok_inv.
  destruct (_init_ok_class _ _ _ Hinit) as [c Hc].
  destruct (_init_run env h2 c _ h' Hc Hinit) as (HL & Hc' & _).
  exists c. by rewrite <-run_dir_eq.
Qed.

Lemma run_directory_format_witness :
  ∃ c, self (load_from_args example_env
               [("model", VStr "sumgan"); ("log_path", VStr "mine")] HParameters).2
         !! "model_class" = Some (VClass c) ∧
       self (load_from_args example_env
               [("model", VStr "sumgan"); ("log_path", VStr "mine")] HParameters).2
         !! "log_path"
         = Some (VStr ("logs/" +:+ pretty (int_timestamp example_env) +:+ "_"
                         +:+ class_name c)).
Proof.
  apply (run_directory_format example_env
           [("model", VStr "sumgan"); ("log_path", VStr "mine")]).
  vm_compute. reflexivity.
Defined.
